(** * Verification-code lifecycle of server.js

    A shallow embedding of the 2FA part of [server.js]: the in-memory
    [verifyStore], the four [/auth/...] handlers and the token round trip,
    followed by the properties the specification states about them.

    Modelling conventions.
    - A JavaScript string is a Rocq [string], one [ascii] per UTF-16 code
      unit; the model covers strings whose code units are all below 256.
      On that range [trim], [toLowerCase] and the class [\s] are exactly
      the definitions below.
    - A request field is an [option string]: [None] is a missing field.
      The two rename handlers call methods of their fields outside any
      [try]; their fields are a [field], which also holds the truthy values
      that are not strings.
    - Instants are [Z] milliseconds, the value of [Date.now()]; every number
      the handlers compute is an integer far below 2^53, so the double
      arithmetic of the source is exact and is written on [Z].
    - [Math.random()] is a double, written as the rational [Q] it denotes;
      the product and the sum of [genCode], which are not integers, are
      rounded to binary64 as the language does ([F64]).
    - [mailer.sendMail] is the flag [delivered]: [true] when the promise
      resolves, [false] when it rejects.
    - [verifyStore] is a [gmap] from the identifier to the entry; the
      in-place mutation [entry.attempts = ...] is an insert under the same
      key. *)

From Stdlib Require Import ZArith QArith Qround Qabs Qpower Lqa.
From Stdlib Require Import String Ascii DecimalString DecimalPos DecimalZ List Lia.
From stdpp Require Import base decidable option numbers list strings gmap.
From Stdlib Require Import Sorted Permutation.

Local Open Scope string_scope.
Local Open Scope Z_scope.

(* ===================================================================== *)
(** ** JavaScript strings *)
(* ===================================================================== *)

Module Js.

(** [x || d] on a request field converted with [String(...)]: a missing
    field and the empty string are falsy. *)
Definition or_default (x : option string) (d : string) : string :=
  match x with
  | Some s => if String.eqb s "" then d else s
  | None => d
  end.

(** [!s] on a string. *)
Definition falsy (s : string) : bool := String.eqb s "".

(** WhiteSpace and LineTerminator code units below 256: TAB, LF, VT, FF,
    CR, SP and NBSP. This is the set [trim] strips and [\s] matches. *)
Definition is_space (c : ascii) : bool :=
  let n := N_of_ascii c in
  ((9 <=? n) && (n <=? 13) || (n =? 32) || (n =? 160))%N.

Fixpoint trimStart (s : string) : string :=
  match s with
  | String c s' => if is_space c then trimStart s' else s
  | EmptyString => EmptyString
  end.

(** Drops the trailing white space: a character is kept when it is not
    white space or when something is kept after it. *)
Fixpoint trimEnd (s : string) : string :=
  match s with
  | String c s' =>
      match trimEnd s' with
      | EmptyString => if is_space c then EmptyString else String c EmptyString
      | t => String c t
      end
  | EmptyString => EmptyString
  end.

Definition trim (s : string) : string := trimEnd (trimStart s).

(** Lower-casing of one code unit below 256: A-Z, and U+00C0..U+00DE
    without the multiplication sign U+00D7, move up by 32. *)
Definition lower_char (c : ascii) : ascii :=
  let n := N_of_ascii c in
  if ((65 <=? n) && (n <=? 90) || (192 <=? n) && (n <=? 222) && negb (n =? 215))%N
  then ascii_of_N (n + 32) else c.

Fixpoint toLowerCase (s : string) : string :=
  match s with
  | String c s' => String (lower_char c) (toLowerCase s')
  | EmptyString => EmptyString
  end.

(** [s.split(sep)] for a one-character separator. *)
Fixpoint split (sep : ascii) (s : string) : list string :=
  match s with
  | EmptyString => [EmptyString]
  | String c s' =>
      if Ascii.eqb c sep then EmptyString :: split sep s'
      else match split sep s' with
           | p :: ps => String c p :: ps
           | [] => [String c EmptyString]
           end
  end.

(** [l.includes(x)] on an array of strings. *)
Definition includes (l : list string) (x : string) : bool :=
  existsb (String.eqb x) l.

(** [String(n)] for an integer [n]. *)
Definition of_int (n : Z) : string :=
  DecimalString.NilZero.string_of_int (Z.to_int n).

(** [Math.ceil(x / d)] for integers [x] and [d > 0]. *)
Definition ceil_div (x d : Z) : Z := - ((- x) / d).

End Js.

(* ===================================================================== *)
(** ** Regular expressions, matched by derivatives *)
(* ===================================================================== *)

Module Re.

Inductive t : Type :=
| Void
| Eps
| Class (p : ascii -> bool)
| Cat (r1 r2 : t)
| Alt (r1 r2 : t)
| Star (r : t).

Definition Plus (r : t) : t := Cat r (Star r).
Definition Chr (c : ascii) : t := Class (Ascii.eqb c).

Fixpoint nullable (r : t) : bool :=
  match r with
  | Void => false
  | Eps => true
  | Class _ => false
  | Cat r1 r2 => nullable r1 && nullable r2
  | Alt r1 r2 => nullable r1 || nullable r2
  | Star _ => true
  end.

Fixpoint deriv (c : ascii) (r : t) : t :=
  match r with
  | Void => Void
  | Eps => Void
  | Class p => if p c then Eps else Void
  | Cat r1 r2 =>
      if nullable r1 then Alt (Cat (deriv c r1) r2) (deriv c r2)
      else Cat (deriv c r1) r2
  | Alt r1 r2 => Alt (deriv c r1) (deriv c r2)
  | Star r1 => Cat (deriv c r1) (Star r1)
  end.

(** [/^r$/.test(s)]: the whole of [s] is matched. *)
Fixpoint test (r : t) (s : string) : bool :=
  match s with
  | EmptyString => nullable r
  | String c s' => test (deriv c r) s'
  end.

End Re.

(** [[^\s@]]. *)
Definition not_space_at (c : ascii) : bool :=
  negb (Js.is_space c) && negb (Ascii.eqb c "@").

(** [/^[^\s@]+@[^\s@]+\.[^\s@]+$/]. *)
Definition EMAIL_RE : Re.t :=
  Re.Cat (Re.Plus (Re.Class not_space_at))
    (Re.Cat (Re.Chr "@")
       (Re.Cat (Re.Plus (Re.Class not_space_at))
          (Re.Cat (Re.Chr ".") (Re.Plus (Re.Class not_space_at))))).

(** The guard of both send handlers,
    [!identifier || !EMAIL_RE.test(identifier)], negated. *)
Definition valid_email (identifier : string) : bool :=
  negb (Js.falsy identifier || negb (Re.test EMAIL_RE identifier)).

(* ===================================================================== *)
(** ** Tokens: the jsonwebtoken calls of the handlers *)
(* ===================================================================== *)

Module Jwt.

(** The claims of a token: [email], [role], [iat] and, once signed with
    [expiresIn], [exp]; the two instants are in seconds. *)
Record claims : Type := Claims {
  email : string;
  role : string;
  iat : Z;
  exp : option Z
}.

(** [jsonwebtoken] is a dependency of the repository. Its tokens are
    modelled symbolically: [Jws key c] is the compact serialisation of the
    claims [c] with an HS256 signature made with [key], and [Opaque s] is
    any other string [s], which does not decode as a signed token. *)
Inductive token : Type :=
| Opaque (s : string)
| Jws (key : string) (c : claims).

Inductive error : Type :=
| Malformed
| InvalidSignature
| TokenExpired.

(** [!token] on the request field. *)
Definition falsy (t : token) : bool :=
  match t with
  | Opaque s => Js.falsy s
  | Jws _ _ => false
  end.

(** [ms('24h') / 1000]. *)
Definition expiresIn_24h : Z := 86400.

(** [jwt.sign(payload, secret, { expiresIn })]: the timestamp is
    [payload.iat || Math.floor(Date.now() / 1000)], it becomes [iat], and
    [exp] is the timestamp plus the span. [clock] is the library's own
    reading of [Date.now()]. *)
Definition sign (payload : claims) (secret : string) (expiresIn clock : Z) : token :=
  let timestamp := if iat payload =? 0 then clock / 1000 else iat payload in
  Jws secret (Claims (email payload) (role payload) timestamp (Some (timestamp + expiresIn))).

(** [jwt.verify(token, secret)] at the instant [clock]: decoding, then the
    signature, then [clockTimestamp >= payload.exp]; [inr] is the thrown
    error. *)
Definition verify (t : token) (secret : string) (clock : Z) : claims + error :=
  match t with
  | Opaque _ => inr Malformed
  | Jws key c =>
      if negb (String.eqb key secret) then inr InvalidSignature
      else match exp c with
           | Some e => if clock / 1000 >=? e then inr TokenExpired else inl c
           | None => inl c
           end
  end.

End Jwt.

(* ===================================================================== *)
(** ** The 2FA store, the configuration and the replies *)
(* ===================================================================== *)

(** The object stored under an identifier, lines 76-82. *)
Record entry : Type := Entry {
  code : string;
  role : string;
  expiresAt : Z;
  lastSentAt : Z;
  attempts : Z
}.

(** [verifyStore = new Map()]. *)
Abbreviation store := (gmap string entry).

(** The resolved module constants and the environment the handlers read. *)
Record config : Type := Config {
  JWT_SECRET : string;
  CODE_TTL : Z;
  RESEND_COOLDOWN : Z;
  env_SMTP_FROM : option string;
  env_ADMIN_EMAILS : option string
}.

(** The message handed to [mailer.sendMail]; the [html] part repeats
    [text] with markup and is left out. *)
Record mail : Type := Mail {
  mail_from : string;
  mail_to : string;
  subject : string;
  text : string
}.

(** The JSON bodies of the four handlers. *)
Inductive body : Type :=
| Error (error : string)
| CodeSent
| EmailVerified (token : Jwt.token) (role email : string)
| TokenValid (email role : string)
| TokenInvalid (error : string).

Record reply : Type := Reply {
  status : Z;
  json : body
}.

(** What a send handler leaves behind: the store, the reply and the message
    it passed to the mailer, if it got that far. *)
Record sent : Type := Sent {
  store_after : store;
  replied : reply;
  outbox : option mail
}.

Record send_request : Type := SendRequest {
  req_identifier : option string;
  req_role : option string
}.

Record verify_request : Type := VerifyRequest {
  vreq_identifier : option string;
  vreq_code : option string
}.

(** [x || 0] on a number. *)
Definition num_or_zero (x : Z) : Z := if x =? 0 then 0 else x.

(** Binary64 arithmetic on the rationals the doubles denote, for values
    far from overflow: a result is rounded to the nearest multiple of the
    unit in the last place of its binade, ties to even. *)
Module F64.

(** [floor(log2 x)] for [x > 0]. *)
Definition ilog2 (x : Q) : Z :=
  if Qle_bool 1 x then Z.log2 (Qfloor x) else - Z.log2_up (Qceiling (/ x)).

(** The exponent of the unit in the last place of [x]: 52 below the
    binade, and never below the subnormal spacing [2^-1074]. *)
Definition ulp_exp (x : Q) : Z := Z.max (ilog2 (Qabs x) - 52) (-1074).

(** The nearest integer, ties to even. *)
Definition rne (x : Q) : Z :=
  match (x - inject_Z (Qfloor x) ?= 1 # 2)%Q with
  | Lt => Qfloor x
  | Gt => Qfloor x + 1
  | Eq => if Z.even (Qfloor x) then Qfloor x else Qfloor x + 1
  end.

Definition round (x : Q) : Q :=
  if Qeq_bool x 0 then 0%Q
  else (inject_Z (rne (x / 2 ^ ulp_exp x)) * 2 ^ ulp_exp x)%Q.

(** [x * y] and [x + y] on doubles. *)
Definition mul (x y : Q) : Q := round (x * y).
Definition add (x y : Q) : Q := round (x + y).

(** [x] is a double: an integer of fewer than 54 bits times a power of
    two not below [2^-1074]. *)
Definition representable (x : Q) : Prop :=
  exists m e, (x == inject_Z m * 2 ^ e)%Q /\ Z.abs m < 2 ^ 53 /\ -1074 <= e.

End F64.

(** [genCode()], with [r] the value of [Math.random()]:
    [String(Math.floor(100000 + r * 900000))]. *)
Definition genCode (r : Q) : string :=
  Js.of_int (Qfloor (F64.add (inject_Z 100000) (F64.mul r (inject_Z 900000)))).

(** [String(req.body?.identifier || '').trim().toLowerCase()]. *)
Definition normalize (field : option string) (default : string) : string :=
  Js.toLowerCase (Js.trim (Js.or_default field default)).

(** Lines 69-71: [Some wait] when [prev] exists and the cooldown has not
    elapsed, with [wait] the seconds reported. *)
Definition cooldown_wait (cfg : config) (prev : option entry) (now : Z) : option Z :=
  match prev with
  | Some p =>
      if now - lastSentAt p <? RESEND_COOLDOWN cfg * 1000
      then Some (Js.ceil_div (RESEND_COOLDOWN cfg * 1000 - (now - lastSentAt p)) 1000)
      else None
  | None => None
  end.

Definition wait_message (wait : Z) : string :=
  ("Please wait " ++ Js.of_int wait ++ "s before requesting again")%string.

(** The object literal of lines 76-82. *)
Definition new_entry (cfg : config) (code role : string) (now : Z) : entry :=
  Entry code role (now + CODE_TTL cfg * 1000) now 0.

Definition expiry_note (cfg : config) : string :=
  (" It expires in " ++ Js.of_int (CODE_TTL cfg / 60) ++ " minutes.")%string.

(** [POST /auth/send-code], lines 57-101. *)
Definition send_code (cfg : config) (s : store) (req : send_request)
    (now : Z) (rnd : Q) (delivered : bool) : sent :=
  let identifier := normalize (req_identifier req) "" in
  let role := normalize (req_role req) "user" in
  if negb (valid_email identifier) then
    Sent s (Reply 400 (Error "Valid email required")) None
  else
    match cooldown_wait cfg (s !! identifier) now with
    | Some wait => Sent s (Reply 429 (Error (wait_message wait))) None
    | None =>
        let code := genCode rnd in
        let s := <[identifier := new_entry cfg code role now]> s in
        let m := Mail (Js.or_default (env_SMTP_FROM cfg) "admin@teamplus.cloud")
                   identifier "Your Team Plus verification code"
                   ("Your verification code is " ++ code ++ "." ++ expiry_note cfg)%string in
        if delivered then Sent s (Reply 200 CodeSent) (Some m)
        else Sent s (Reply 500 (Error "Failed to send code")) (Some m)
    end.

(** Line 180: the allow-list read from the environment. *)
Definition ADMIN_EMAILS (cfg : config) : list string :=
  List.filter (fun e => negb (Js.falsy e))
    (List.map (fun e => Js.toLowerCase (Js.trim e))
       (Js.split "," (Js.or_default (env_ADMIN_EMAILS cfg) ""))).

(** Line 182: [ADMIN_EMAILS.length > 0 && !ADMIN_EMAILS.includes(identifier)]. *)
Definition denied (cfg : config) (identifier : string) : bool :=
  (Z.of_nat (length (ADMIN_EMAILS cfg)) >? 0) && negb (Js.includes (ADMIN_EMAILS cfg) identifier).

(** [POST /auth/admin-send-code], lines 170-225. *)
Definition admin_send_code (cfg : config) (s : store) (req : send_request)
    (now : Z) (rnd : Q) (delivered : bool) : sent :=
  let identifier := normalize (req_identifier req) "" in
  let role := normalize (req_role req) "admin" in
  if negb (valid_email identifier) then
    Sent s (Reply 400 (Error "Valid email required")) None
  else if denied cfg identifier then
    Sent s (Reply 403 (Error "Access denied. This email is not authorized for admin access.")) None
  else
    match cooldown_wait cfg (s !! identifier) now with
    | Some wait => Sent s (Reply 429 (Error (wait_message wait))) None
    | None =>
        let code := genCode rnd in
        let s := <[identifier := new_entry cfg code role now]> s in
        let m := Mail (Js.or_default (env_SMTP_FROM cfg) "admin@teamplus.cloud")
                   identifier "Team Plus Admin - Verification Code"
                   ("Your admin verification code is " ++ code ++ "." ++ expiry_note cfg)%string in
        if delivered then Sent s (Reply 200 CodeSent) (Some m)
        else Sent s (Reply 500 (Error "Failed to send code")) (Some m)
    end.

Definition set_attempts (e : entry) (n : Z) : entry :=
  Entry (code e) (role e) (expiresAt e) (lastSentAt e) n.

(** Lines 128-136: the token minted for [identifier] and [role] at the
    instant [now]. *)
Definition mint (cfg : config) (identifier role : string) (now : Z) : Jwt.token :=
  Jwt.sign (Jwt.Claims identifier role (now / 1000) None)
    (JWT_SECRET cfg) Jwt.expiresIn_24h now.

(** [POST /auth/verify-code], lines 104-147. [now] is the reading of line
    111 and [now_iat] the one of line 132. *)
Definition verify_code (cfg : config) (s : store) (req : verify_request)
    (now now_iat : Z) : store * reply :=
  let identifier := normalize (vreq_identifier req) "" in
  let submitted := Js.trim (Js.or_default (vreq_code req) "") in
  match s !! identifier with
  | None => (s, Reply 400 (Error "No code requested for this email"))
  | Some e =>
      if now >? expiresAt e then
        (delete identifier s, Reply 400 (Error "Code expired. Request a new one."))
      else
        let e := set_attempts e (num_or_zero (attempts e) + 1) in
        let s := <[identifier := e]> s in
        if attempts e >? 6 then
          (delete identifier s, Reply 429 (Error "Too many attempts. Request a new code."))
        else if negb (String.eqb (code e) submitted) then
          (s, Reply 400 (Error "Invalid code"))
        else
          let token := mint cfg identifier (Js.or_default (Some (role e)) "user") now_iat in
          (delete identifier s,
           Reply 200 (EmailVerified token (Js.or_default (Some (role e)) "user") identifier))
  end.

(** [POST /auth/verify-token], lines 150-167. *)
Definition verify_token (cfg : config) (token : option Jwt.token) (now : Z) : reply :=
  match token with
  | None => Reply 401 (TokenInvalid "No token provided")
  | Some t =>
      if Jwt.falsy t then Reply 401 (TokenInvalid "No token provided")
      else
        match Jwt.verify t (JWT_SECRET cfg) now with
        | inl decoded => Reply 200 (TokenValid (Jwt.email decoded) (Jwt.role decoded))
        | inr _ => Reply 401 (TokenInvalid "Invalid or expired token")
        end
  end.

(** A run of submissions against the store, oldest first, with the replies
    in the same order. *)
Record submission : Type := Submission {
  sub_request : verify_request;
  sub_now : Z;
  sub_now_iat : Z
}.

Fixpoint submit_all (cfg : config) (s : store) (subs : list submission)
    : store * list reply :=
  match subs with
  | [] => (s, [])
  | x :: rest =>
      let '(s1, r) := verify_code cfg s (sub_request x) (sub_now x) (sub_now_iat x) in
      let '(s2, rs) := submit_all cfg s1 rest in
      (s2, r :: rs)
  end.

(* ===================================================================== *)
(** ** Vocabulary of the statements *)
(* ===================================================================== *)

Definition no_code_requested : reply := Reply 400 (Error "No code requested for this email").
Definition code_expired : reply := Reply 400 (Error "Code expired. Request a new one.").
Definition too_many_attempts : reply := Reply 429 (Error "Too many attempts. Request a new code.").
Definition invalid_code : reply := Reply 400 (Error "Invalid code").
Definition email_required : reply := Reply 400 (Error "Valid email required").
Definition failed_to_send : reply := Reply 500 (Error "Failed to send code").
Definition access_denied : reply :=
  Reply 403 (Error "Access denied. This email is not authorized for admin access.").
Definition invalid_or_expired : reply := Reply 401 (TokenInvalid "Invalid or expired token").

(** The identifier a request is about, and the code it carries, as the
    handlers read them. *)
Definition identifier_of (req : verify_request) : string :=
  normalize (vreq_identifier req) "".
Definition code_of (req : verify_request) : string :=
  Js.trim (Js.or_default (vreq_code req) "").

(** A submission for [id], made no later than the expiry of [e], with a
    code other than the one of [e]. *)
Definition wrong_in_time (id : string) (e : entry) (x : submission) : Prop :=
  identifier_of (sub_request x) = id /\
  sub_now x <= expiresAt e /\
  code_of (sub_request x) <> code e.

(** The role a successful verification reports, [entry.role || 'user']. *)
Definition reported_role (e : entry) : string :=
  Js.or_default (Some (role e)) "user".

(** The three ways a presented token fails [jwt.verify]. *)
Definition malformed (t : Jwt.token) : Prop :=
  exists s, t = Jwt.Opaque s.
Definition bad_signature (cfg : config) (t : Jwt.token) : Prop :=
  exists key c, t = Jwt.Jws key c /\ key <> JWT_SECRET cfg.
Definition expired (t : Jwt.token) (now : Z) : Prop :=
  exists key c e, t = Jwt.Jws key c /\ Jwt.exp c = Some e /\ e <= now / 1000.

(** The sentence of the specification on a failed delivery, as it is
    written: every identifier keeps the entry, or the absence, it had. *)
Definition failed_delivery_leaves_store (cfg : config) (s : store)
    (req : send_request) (now : Z) (rnd : Q) : Prop :=
  replied (send_code cfg s req now rnd false) = failed_to_send ->
  forall id, store_after (send_code cfg s req now rnd false) !! id = s !! id.

(** The sentence of the specification on a successful verification, as it
    is written: the reply carries the role of the stored challenge. *)
Definition success_reports_stored_role (cfg : config) (s : store)
    (req : verify_request) (now now_iat : Z) : Prop :=
  forall e, s !! identifier_of req = Some e ->
    code_of req = code e -> now <= expiresAt e -> attempts e < 6 ->
    exists token,
      verify_code cfg s req now now_iat =
        (delete (identifier_of req) s,
         Reply 200 (EmailVerified token (role e) (identifier_of req))).

(** The sentence of the specification on the allow-list, as it is
    written: with a non-empty list, a request for an identifier that is not
    on it is answered with the forbidden error. *)
Definition unlisted_is_forbidden (cfg : config) (s : store) (req : send_request)
    (now : Z) (rnd : Q) (delivered : bool) : Prop :=
  ADMIN_EMAILS cfg <> [] ->
  ~ In (normalize (req_identifier req) "") (ADMIN_EMAILS cfg) ->
  replied (admin_send_code cfg s req now rnd delivered) = access_denied.

(** The configuration of the examples: the defaults of lines 14, 28, 29. *)
Definition default_config : config :=
  Config "fallback-secret-change-this" 600 60 None None.

(** A pending challenge for [a@b.com], as send-code leaves it when called
    at the instant 0 with [Math.random()] at 0.25, and submissions of a
    wrong and of the right code. *)
Definition alice : string := "a@b.com".
Definition alice_entry : entry := Entry "325000" "user" 600000 0 0.
Definition alice_store : store := {[ alice := alice_entry ]}.
Definition alice_submits (c : string) (now : Z) : submission :=
  Submission (VerifyRequest (Some " A@B.com") (Some c)) now now.

(* ===================================================================== *)
(** ** Vocabulary of the further properties of the 2FA handlers *)
(* ===================================================================== *)

(** The language of a regular expression, against which [Re.test] is
    checked. *)
Inductive re_lang : Re.t -> string -> Prop :=
| lang_eps : re_lang Re.Eps EmptyString
| lang_class p c : p c = true -> re_lang (Re.Class p) (String c EmptyString)
| lang_cat r1 r2 s1 s2 :
    re_lang r1 s1 -> re_lang r2 s2 -> re_lang (Re.Cat r1 r2) (s1 ++ s2)%string
| lang_alt_l r1 r2 s : re_lang r1 s -> re_lang (Re.Alt r1 r2) s
| lang_alt_r r1 r2 s : re_lang r2 s -> re_lang (Re.Alt r1 r2) s
| lang_star_nil r : re_lang (Re.Star r) EmptyString
| lang_star_cons r s1 s2 :
    re_lang r s1 -> re_lang (Re.Star r) s2 -> re_lang (Re.Star r) (s1 ++ s2)%string.

(** Every character of [s] satisfies [p]. *)
Fixpoint all_chars (p : ascii -> bool) (s : string) : bool :=
  match s with
  | EmptyString => true
  | String c s' => p c && all_chars p s'
  end.

(** A non-empty run of characters other than white space and [@]. *)
Definition email_part (s : string) : Prop :=
  s <> EmptyString /\ all_chars not_space_at s = true.

Definition is_digit (c : ascii) : bool :=
  ((48 <=? N_of_ascii c) && (N_of_ascii c <=? 57))%N.

(** What the handlers keep true of every stored challenge: the key is an
    identifier the send handlers accept and is its own normal form, the
    attempts are between 0 and the ceiling, the expiry is the issuance plus
    the time to live, and the code is the decimal writing of an integer of
    six digits. *)
Definition entry_ok (cfg : config) (id : string) (e : entry) : Prop :=
  valid_email id = true /\
  normalize (Some id) "" = id /\
  0 <= attempts e <= 6 /\
  expiresAt e = lastSentAt e + CODE_TTL cfg * 1000 /\
  exists n, 100000 <= n <= 999999 /\ code e = Js.of_int n.

Definition store_ok (cfg : config) (s : store) : Prop :=
  forall id e, s !! id = Some e -> entry_ok cfg id e.

(** The stores the three handlers build from the empty [Map], whatever the
    requests, the instants and the outcome of the deliveries, with
    [Math.random()] a double in its range. *)
Inductive reachable (cfg : config) : store -> Prop :=
| reach_start : reachable cfg ∅
| reach_send_code s req now rnd delivered :
    reachable cfg s -> F64.representable rnd -> (0 <= rnd)%Q -> (rnd < 1)%Q ->
    reachable cfg (store_after (send_code cfg s req now rnd delivered))
| reach_admin_send_code s req now rnd delivered :
    reachable cfg s -> F64.representable rnd -> (0 <= rnd)%Q -> (rnd < 1)%Q ->
    reachable cfg (store_after (admin_send_code cfg s req now rnd delivered))
| reach_verify_code s req now now_iat :
    reachable cfg s ->
    reachable cfg (verify_code cfg s req now now_iat).1.

(** A code as the specification of the generator wants it: six
    characters, all decimal digits. *)
Definition six_digits (c : string) : bool :=
  Nat.eqb (String.length c) 6 && all_chars is_digit c.

(** [p] holds of the [count] integers from [n] on. *)
Fixpoint all_from (p : Z -> bool) (n : Z) (count : nat) : bool :=
  match count with
  | O => true
  | S k => p n && all_from p (n + 1) k
  end.

(** A reply of verify-code that tells whether the submitted code was the
    right one: "Invalid code" or the success. *)
Definition compared (r : reply) : bool :=
  match json r with
  | Error msg => String.eqb msg "Invalid code"
  | EmailVerified _ _ _ => true
  | _ => false
  end.

(** The request that submits, for the identifier of a send request, the
    code generated for it. *)
Definition submit_generated (req : send_request) (rnd : Q) : verify_request :=
  VerifyRequest (req_identifier req) (Some (genCode rnd)).

(* ===================================================================== *)
(** ** The firmware API, lines 226-502 *)
(* ===================================================================== *)

Module Arr.

(** [x] goes in front of the first element it may precede. *)
Fixpoint insert {A : Type} (before : A -> A -> bool) (x : A) (l : list A) : list A :=
  match l with
  | [] => [x]
  | y :: l' => if before x y then x :: y :: l' else y :: insert before x l'
  end.

(** [l.sort(cmp)] for a comparator that orders consistently, with
    [before a b] standing for [cmp(a, b) <= 0]. The sort of the language is
    stable, so its result is the one sorted arrangement that keeps equal
    elements in their order; this insertion sort computes it. *)
Fixpoint sort {A : Type} (before : A -> A -> bool) (l : list A) : list A :=
  match l with
  | [] => []
  | x :: l' => insert before x (sort before l')
  end.

(** [l.join(sep)]. *)
Fixpoint join (sep : string) (l : list string) : string :=
  match l with
  | [] => EmptyString
  | [x] => x
  | x :: l' => (x ++ sep ++ join sep l')%string
  end.

End Arr.

Module Str.

(** [s.endsWith(suffix)]. *)
Fixpoint endsWith (s suffix : string) : bool :=
  if String.eqb s suffix then true
  else match s with
       | String _ s' => endsWith s' suffix
       | EmptyString => false
       end.

End Str.

Definition in_range (lo hi c : ascii) : bool :=
  ((N_of_ascii lo <=? N_of_ascii c) && (N_of_ascii c <=? N_of_ascii hi))%N.

(** [[a-zA-Z0-9-_\s]], line 276. *)
Definition create_name_char (c : ascii) : bool :=
  in_range "a" "z" c || in_range "A" "Z" c || in_range "0" "9" c
  || Ascii.eqb c "-" || Ascii.eqb c "_" || Js.is_space c.

(** [[a-zA-Z0-9\s\-_]], line 451. *)
Definition rename_name_char (c : ascii) : bool :=
  in_range "a" "z" c || in_range "A" "Z" c || in_range "0" "9" c
  || Js.is_space c || Ascii.eqb c "-" || Ascii.eqb c "_".

(** [[a-zA-Z0-9_-]], admin-cli.js line 50. *)
Definition cli_name_char (c : ascii) : bool :=
  in_range "a" "z" c || in_range "A" "Z" c || in_range "0" "9" c
  || Ascii.eqb c "_" || Ascii.eqb c "-".

Definition CREATE_NAME_RE : Re.t := Re.Plus (Re.Class create_name_char).
Definition RENAME_NAME_RE : Re.t := Re.Plus (Re.Class rename_name_char).
Definition CLI_NAME_RE : Re.t := Re.Plus (Re.Class cli_name_char).

(** The guard of admin-cli.js line 50, negated. *)
Definition cli_name_ok (dirName : string) : bool :=
  negb (Js.falsy dirName || negb (Re.test CLI_NAME_RE dirName)).

Inductive kind : Type := IsFile | IsDirectory | IsOther.

(** A [Dirent] of [readdir(..., { withFileTypes: true })]. *)
Record dirent : Type := Dirent {
  d_name : string;
  d_kind : kind
}.

(** The fields of [fs.Stats] the handlers read; [mtime] in milliseconds. *)
Record stats : Type := Stats {
  st_size : Z;
  st_mtime : Z
}.

(** The calls that change the file system. *)
Inductive fs_call : Type :=
| Mkdir (p : string)
| WriteFile (p : string) (data : string)
| Rename (oldPath newPath : string).

(** The [path] and [fs] modules as a handler meets them during one
    request: [path.join], the answers of the reading calls, and for each
    changing call the message of the error it throws, if it throws. *)
Record node : Type := Node {
  dirname : string;
  path_join : list string -> string;
  existsSync : string -> bool;
  readdir : string -> option (list dirent);
  stat : string -> option stats;
  throws : fs_call -> option string
}.

(** Line 231. *)
Definition FIRMWARE_DIR (env : node) : string :=
  path_join env [dirname env; "public"; "firmware"].

Record file_info : Type := FileInfo {
  f_name : string;
  f_size : Z;
  f_modified : Z;
  f_url : string
}.

(** The JSON bodies of the firmware handlers: [Failure] is
    [{ ok: false, error }], the others carry [ok: true]. *)
Inductive api_body : Type :=
| Failure (error : string)
| Success (message : string)
| Directories (directories : list string)
| Files (files : list file_info)
| Uploaded (filename : string) (size : Z).

Record api_reply : Type := ApiReply {
  api_status : Z;
  api_json : api_body
}.

(** The reply of a handler and the changing calls it made, in order; only
    the last one can have thrown. *)
Record api_result : Type := ApiResult {
  api_replied : api_reply;
  fs_calls : list fs_call
}.

Definition is_directory (e : dirent) : bool :=
  match d_kind e with IsDirectory => true | _ => false end.
Definition is_file (e : dirent) : bool :=
  match d_kind e with IsFile => true | _ => false end.

(** [!x] on a field of the request body. *)
Definition missing (x : option string) : bool :=
  match x with
  | Some v => Js.falsy v
  | None => true
  end.

(** [GET /api/directories], lines 254-269; [sort()] orders strings by
    their code units. *)
Definition list_directories (env : node) : api_reply :=
  match readdir env (FIRMWARE_DIR env) with
  | Some entries =>
      ApiReply 200 (Directories
        (Arr.sort String.leb (List.map d_name (List.filter is_directory entries))))
  | None => ApiReply 500 (Failure "Failed to read directories")
  end.

(** [POST /api/directories], lines 272-300. *)
Definition create_directory (env : node) (name : option string) : api_result :=
  match name with
  | Some name =>
      if Js.falsy name || negb (Re.test CREATE_NAME_RE name) then
        ApiResult (ApiReply 400 (Failure
          "Invalid directory name. Use only letters, numbers, spaces, hyphens, and underscores.")) []
      else
        let firmwarePath := path_join env [FIRMWARE_DIR env; name] in
        if existsSync env firmwarePath then
          ApiResult (ApiReply 400 (Failure "Directory already exists")) []
        else
          match throws env (Mkdir firmwarePath) with
          | None => ApiResult (ApiReply 200 (Success "Directory created successfully"))
                      [Mkdir firmwarePath]
          | Some _ => ApiResult (ApiReply 500 (Failure "Failed to create directory"))
                        [Mkdir firmwarePath]
          end
  | None =>
      ApiResult (ApiReply 400 (Failure
        "Invalid directory name. Use only letters, numbers, spaces, hyphens, and underscores.")) []
  end.

(** The object built for one file, lines 343-350. *)
Definition describe_file (env : node) (directory dirPath : string) (e : dirent)
    : option file_info :=
  match stat env (path_join env [dirPath; d_name e]) with
  | Some st =>
      Some (FileInfo (d_name e) (st_size st) (st_mtime st)
              ("/firmware/" ++ directory ++ "/" ++ d_name e)%string)
  | None => None
  end.

(** [Promise.all] over the files: all the objects, or the failure of one. *)
Fixpoint describe_all (env : node) (directory dirPath : string) (l : list dirent)
    : option (list file_info) :=
  match l with
  | [] => Some []
  | e :: l' =>
      match describe_file env directory dirPath e, describe_all env directory dirPath l' with
      | Some f, Some fs => Some (f :: fs)
      | _, _ => None
      end
  end.

(** The comparator of line 354, [(a, b) => b.modified - a.modified], as
    [cmp(a, b) <= 0]. *)
Definition newest_first (a b : file_info) : bool :=
  f_modified b - f_modified a <=? 0.

(** [GET /api/files], lines 324-359. *)
Definition list_files (env : node) (directory : option string) : api_reply :=
  match directory with
  | Some directory =>
      if Js.falsy directory then ApiReply 400 (Failure "Directory parameter required")
      else
        let dirPath := path_join env [FIRMWARE_DIR env; directory] in
        if negb (existsSync env dirPath) then ApiReply 200 (Files [])
        else
          match readdir env dirPath with
          | Some entries =>
              match describe_all env directory dirPath (List.filter is_file entries) with
              | Some files => ApiReply 200 (Files (Arr.sort newest_first files))
              | None => ApiReply 500 (Failure "Failed to read files")
              end
          | None => ApiReply 500 (Failure "Failed to read files")
          end
  | None => ApiReply 400 (Failure "Directory parameter required")
  end.

(** [req.file] as multer leaves it. *)
Record upload_file : Type := UploadFile {
  originalname : string;
  buffer : string;
  file_size : Z
}.

(** The [fileFilter] of lines 241-247: [true] for [cb(null, true)],
    [false] for the error "Only .bin files are allowed". *)
Definition fileFilter (originalname : string) : bool :=
  Str.endsWith originalname ".bin".

(** [error.message || 'Failed to upload file']. *)
Definition upload_error (message : string) : api_reply :=
  ApiReply 500 (Failure (Js.or_default (Some message) "Failed to upload file")).

(** [POST /api/upload], lines 362-405, once multer has run. *)
Definition upload (env : node) (file : option upload_file) (directory : option string)
    : api_result :=
  match file with
  | None => ApiResult (ApiReply 400 (Failure "No file uploaded")) []
  | Some file =>
      if missing directory then
        ApiResult (ApiReply 400 (Failure "Directory name is required")) []
      else
        let directory := Js.or_default directory "" in
        let firmwarePath := path_join env [FIRMWARE_DIR env; directory] in
        let absent := negb (existsSync env firmwarePath) in
        let made := if absent then [Mkdir firmwarePath] else [] in
        match (if absent then throws env (Mkdir firmwarePath) else None) with
        | Some message => ApiResult (upload_error message) made
        | None =>
            let filePath := path_join env [firmwarePath; originalname file] in
            let written := (made ++ [WriteFile filePath (buffer file)])%list in
            match throws env (WriteFile filePath (buffer file)) with
            | Some message => ApiResult (upload_error message) written
            | None =>
                ApiResult (ApiReply 200 (Uploaded (originalname file) (file_size file))) written
            end
        end
  end.

(** A field of a JSON body as the two rename handlers test and use it:
    [Str s] is the string [s]; [Other s] is a truthy value that is not a
    string (a number, [true], an array, an object), with [s] what [String]
    makes of it; [Falsy] is a missing field, [null], [false] or [0]. *)
Inductive field : Type :=
| Falsy
| Str (s : string)
| Other (as_string : string).







(** A name without a path separator and without a dot. *)
Definition plain_char (c : ascii) : bool :=
  negb (Ascii.eqb c "/") && negb (Ascii.eqb c "\") && negb (Ascii.eqb c ".").

(** White space or a comma. *)
Definition blank_or_comma (c : ascii) : bool :=
  Js.is_space c || Ascii.eqb c ",".

Definition not_comma (c : ascii) : bool := negb (Ascii.eqb c ",").

(** [b] is not more recent than [a]. *)
Definition not_newer (a b : file_info) : Prop := f_modified b <= f_modified a.

Definition modified_at (k : Z) (f : file_info) : bool := f_modified f =? k.

(** A file system for the examples: paths are joined with [/], only
    [/srv/public/firmware] and its directory [esp32] exist, with two
    files and a directory inside, and no call throws. *)
Definition join_slash (parts : list string) : string :=
  match parts with
  | [] => "."
  | p :: ps => fold_left (fun acc q => (acc ++ "/" ++ q)%string) ps p
  end.

Definition example_node : node :=
  Node "/srv" join_slash
    (fun p => String.eqb p "/srv/public/firmware" || String.eqb p "/srv/public/firmware/esp32"
              || String.eqb p "/srv/public/firmware/esp32/old.bin"
              || String.eqb p "/srv/public/firmware/esp32/new.bin")
    (fun p =>
       if String.eqb p "/srv/public/firmware"
       then Some [Dirent "zeta" IsDirectory; Dirent "readme.txt" IsFile;
                  Dirent "esp32" IsDirectory; Dirent "Alpha" IsDirectory]
       else if String.eqb p "/srv/public/firmware/esp32"
       then Some [Dirent "old.bin" IsFile; Dirent "backup" IsDirectory; Dirent "new.bin" IsFile]
       else None)
    (fun p =>
       if String.eqb p "/srv/public/firmware/esp32/old.bin" then Some (Stats 1024 1000)
       else if String.eqb p "/srv/public/firmware/esp32/new.bin" then Some (Stats 2048 5000)
       else None)
    (fun _ => None).

(* ===================================================================== *)
(** ** The model on concrete inputs *)
(* ===================================================================== *)

Example valid_email_plain : valid_email "a@b.com" = true.
Proof. reflexivity. Qed.
Example valid_email_no_tld : valid_email "a@b" = false.
Proof. reflexivity. Qed.
Example valid_email_space : valid_email "a b@c.de" = false.
Proof. reflexivity. Qed.
Example valid_email_two_at : valid_email "a@b@c.de" = false.
Proof. reflexivity. Qed.
Example valid_email_empty : valid_email "" = false.
Proof. reflexivity. Qed.
Example normalize_mixed : normalize (Some "  Bob@Example.COM ") "" = "bob@example.com".
Proof. reflexivity. Qed.
Example normalize_missing_role : normalize None "user" = "user".
Proof. reflexivity. Qed.
Example split_commas : Js.split "," "a,,b" = ["a"; ""; "b"].
Proof. reflexivity. Qed.
Example genCode_low : genCode 0 = "100000".
Proof. reflexivity. Qed.
Example genCode_half : genCode (1 # 2) = "550000".
Proof. reflexivity. Qed.
Example genCode_rounds_up : genCode (150119987579 # 4503599627370496) = "100030".
Proof. vm_compute. reflexivity. Qed.
Example genCode_last : genCode (9007199254740991 # 9007199254740992) = "999999".
Proof. vm_compute. reflexivity. Qed.
Example round_tenth : (F64.round (1 # 10) == 3602879701896397 # 36028797018963968)%Q.
Proof. vm_compute. reflexivity. Qed.
Example ceil_div_up : Js.ceil_div 59001 1000 = 60.
Proof. reflexivity. Qed.
Example ceil_div_exact : Js.ceil_div 59000 1000 = 59.
Proof. reflexivity. Qed.

Example valid_email_dots : valid_email "a@b..c" = true.
Proof. reflexivity. Qed.
Example valid_email_dot_first : valid_email "a@.c" = false.
Proof. reflexivity. Qed.
Example trim_inner_blank : Js.trim (String "009" " a b  ") = "a b".
Proof. reflexivity. Qed.

(** The scenario of the specification: a code is issued for [a@b.com] with
    the role "user", a wrong code leaves the challenge pending with one
    attempt, the right code yields the token and the role, and nothing is
    pending afterwards. *)
Example scenario_issue :
  send_code default_config ∅ (SendRequest (Some alice) (Some "user")) 0 (1 # 4) true
    = Sent alice_store (Reply 200 CodeSent)
        (Some (Mail "admin@teamplus.cloud" alice "Your Team Plus verification code"
                 "Your verification code is 325000. It expires in 10 minutes.")).
Proof. vm_compute. reflexivity. Qed.

Example scenario_submit :
  submit_all default_config alice_store
      [alice_submits "000000" 1000; alice_submits "325000" 2000; alice_submits "325000" 3000]
    = (∅, [invalid_code;
           Reply 200 (EmailVerified (mint default_config alice "user" 2000) "user" alice);
           no_code_requested]).
Proof. vm_compute. reflexivity. Qed.

(* ===================================================================== *)
(** ** Steps of verify-code *)
(* ===================================================================== *)

Lemma num_or_zero_id (x : Z) : num_or_zero x = x.
Proof. unfold num_or_zero. destruct (Z.eqb_spec x 0); congruence. Qed.

Lemma set_attempts_same (e : entry) : set_attempts e (attempts e) = e.
Proof. by destruct e. Qed.

Lemma verify_code_absent cfg (s : store) req now now_iat :
  s !! identifier_of req = None ->
  verify_code cfg s req now now_iat = (s, no_code_requested).
Proof.
  intros Hnone. unfold verify_code. fold (identifier_of req).
  by rewrite Hnone.
Qed.

Lemma verify_code_expired cfg (s : store) req now now_iat e :
  s !! identifier_of req = Some e ->
  expiresAt e < now ->
  verify_code cfg s req now now_iat = (delete (identifier_of req) s, code_expired).
Proof.
  intros He Hlate. unfold verify_code. fold (identifier_of req). rewrite He.
  destruct (Z.gtb_spec now (expiresAt e)) as [_|Hle]; [done | lia].
Qed.

Lemma verify_code_locked cfg (s : store) req now now_iat e :
  s !! identifier_of req = Some e ->
  now <= expiresAt e ->
  6 <= attempts e ->
  verify_code cfg s req now now_iat = (delete (identifier_of req) s, too_many_attempts).
Proof.
  intros He Hfresh Hmany. unfold verify_code. fold (identifier_of req). rewrite He.
  destruct (Z.gtb_spec now (expiresAt e)) as [Hgt|_]; [lia |].
  rewrite num_or_zero_id. cbn [attempts set_attempts].
  destruct (Z.gtb_spec (attempts e + 1) 6) as [_|Hle]; [| lia].
  by rewrite delete_insert_eq.
Qed.

Lemma verify_code_wrong cfg (s : store) req now now_iat e :
  s !! identifier_of req = Some e ->
  now <= expiresAt e ->
  attempts e < 6 ->
  code_of req <> code e ->
  verify_code cfg s req now now_iat =
    (<[identifier_of req := set_attempts e (attempts e + 1)]> s, invalid_code).
Proof.
  intros He Hfresh Hfew Hwrong. unfold verify_code.
  fold (identifier_of req) (code_of req). rewrite He.
  destruct (Z.gtb_spec now (expiresAt e)) as [Hgt|_]; [lia |].
  rewrite num_or_zero_id. cbn [attempts set_attempts code].
  destruct (Z.gtb_spec (attempts e + 1) 6) as [Hgt|_]; [lia |].
  destruct (String.eqb_spec (code e) (code_of req)) as [Heq|_]; [congruence | done].
Qed.

Lemma verify_code_match cfg (s : store) req now now_iat e :
  s !! identifier_of req = Some e ->
  now <= expiresAt e ->
  attempts e < 6 ->
  code_of req = code e ->
  verify_code cfg s req now now_iat =
    (delete (identifier_of req) s,
     Reply 200 (EmailVerified (mint cfg (identifier_of req) (reported_role e) now_iat)
                  (reported_role e) (identifier_of req))).
Proof.
  intros He Hfresh Hfew Hright. unfold verify_code.
  fold (identifier_of req) (code_of req). rewrite He.
  destruct (Z.gtb_spec now (expiresAt e)) as [Hgt|_]; [lia |].
  rewrite num_or_zero_id. cbn [attempts set_attempts code role].
  destruct (Z.gtb_spec (attempts e + 1) 6) as [Hgt|_]; [lia |].
  rewrite <- Hright, String.eqb_refl. cbn [negb].
  by rewrite delete_insert_eq.
Qed.

(** Once the entry of an identifier is deleted, every later submission for
    it is answered with "No code requested" and changes nothing. *)
Lemma verify_code_after_delete cfg (s : store) id req now now_iat :
  identifier_of req = id ->
  verify_code cfg (delete id s) req now now_iat = (delete id s, no_code_requested).
Proof.
  intros <-. apply verify_code_absent. apply lookup_delete_eq.
Qed.

(* ===================================================================== *)
(** ** Properties of verify-code *)
(* ===================================================================== *)

(** C10. verify-code validates no syntax: whatever the identifier field
    holds, it is normalised and looked up, the reply is never the
    validation error of the send handlers, and when the store has no entry
    under the normalised identifier the reply is "No code requested for this
    email" and the store is returned as it was. *)
Theorem verify_code_without_validation cfg (s : store) req now now_iat :
  s !! normalize (vreq_identifier req) "" = None ->
  verify_code cfg s req now now_iat = (s, no_code_requested) /\
  (forall s' req' now' now_iat',
     (verify_code cfg s' req' now' now_iat').2 <> email_required).
Proof.
  intros Hnone. split; [by apply verify_code_absent |].
  intros s' req' now' now_iat'. unfold verify_code.
  destruct (s' !! _) as [e|]; [| discriminate].
  repeat case_match; discriminate.
Qed.

Lemma verify_code_without_validation_witness :
  verify_code default_config alice_store (VerifyRequest (Some "not an email") None) 5 5
    = (alice_store, no_code_requested) /\
  verify_code default_config alice_store (VerifyRequest None (Some "325000")) 5 5
    = (alice_store, no_code_requested).
Proof.
  split.
  - apply (verify_code_without_validation default_config alice_store
             (VerifyRequest (Some "not an email") None) 5 5).
    vm_compute. reflexivity.
  - apply (verify_code_without_validation default_config alice_store
             (VerifyRequest None (Some "325000")) 5 5).
    vm_compute. reflexivity.
Defined.

(** C4. A submission made strictly after [expiresAt], whatever code it
    carries, deletes the challenge and is answered with the expiry error;
    every later submission for the same identifier, at any instant and with
    any code, is answered with "No code requested" and leaves the store
    without the challenge. *)
Theorem expired_challenge_is_gone cfg (s : store) req now now_iat e :
  s !! identifier_of req = Some e ->
  expiresAt e < now ->
  verify_code cfg s req now now_iat = (delete (identifier_of req) s, code_expired) /\
  (delete (identifier_of req) s) !! identifier_of req = None /\
  (forall req' now' now_iat',
     identifier_of req' = identifier_of req ->
     verify_code cfg (delete (identifier_of req) s) req' now' now_iat'
       = (delete (identifier_of req) s, no_code_requested)).
Proof.
  intros He Hlate. split; [by eapply verify_code_expired |].
  split; [apply lookup_delete_eq |].
  intros req' now' now_iat' Hsame. by apply verify_code_after_delete.
Qed.

Lemma expired_challenge_is_gone_witness :
  verify_code default_config alice_store (sub_request (alice_submits "325000" 600001)) 600001 600001
    = (delete alice alice_store, code_expired) /\
  verify_code default_config (delete alice alice_store)
      (sub_request (alice_submits "325000" 600002)) 600002 600002
    = (delete alice alice_store, no_code_requested).
Proof.
  destruct (expired_challenge_is_gone default_config alice_store
              (sub_request (alice_submits "325000" 600001)) 600001 600001 alice_entry)
    as (Hfirst & _ & Hretry).
  - vm_compute. reflexivity.
  - vm_compute. reflexivity.
  - split; [exact Hfirst |].
    apply (Hretry (sub_request (alice_submits "325000" 600002))). reflexivity.
Defined.

(** C3, as the code has it. A submission whose trimmed code is the stored
    one, made no later than [expiresAt] on a challenge with fewer than 6
    attempts, deletes the challenge and is answered with a token, the
    identifier and the role [entry.role || 'user']: the stored role, or
    "user" when the stored role is the empty string. The token is the one
    minted for that identifier and that role. Every later submission for
    the identifier, the same code included, is answered with "No code
    requested". *)
Theorem one_shot_consumption cfg (s : store) req now now_iat e :
  s !! identifier_of req = Some e ->
  code_of req = code e ->
  now <= expiresAt e ->
  attempts e < 6 ->
  verify_code cfg s req now now_iat =
    (delete (identifier_of req) s,
     Reply 200 (EmailVerified (mint cfg (identifier_of req) (reported_role e) now_iat)
                  (reported_role e) (identifier_of req))) /\
  (role e <> "" -> reported_role e = role e) /\
  (role e = "" -> reported_role e = "user") /\
  (forall req' now' now_iat',
     identifier_of req' = identifier_of req ->
     verify_code cfg (delete (identifier_of req) s) req' now' now_iat'
       = (delete (identifier_of req) s, no_code_requested)).
Proof.
  intros He Hcode Hfresh Hfew.
  split; [by apply verify_code_match |].
  split; [| split].
  - intros Hrole. unfold reported_role, Js.or_default.
    destruct (String.eqb_spec (role e) ""); [contradiction | reflexivity].
  - intros Hrole. unfold reported_role. by rewrite Hrole.
  - intros req' now' now_iat' Hsame. by apply verify_code_after_delete.
Qed.

Lemma one_shot_consumption_witness :
  verify_code default_config alice_store (sub_request (alice_submits " 325000 " 7)) 7 8
    = (delete alice alice_store,
       Reply 200 (EmailVerified (mint default_config alice "user" 8) "user" alice)) /\
  verify_code default_config (delete alice alice_store)
      (sub_request (alice_submits " 325000 " 9)) 9 9
    = (delete alice alice_store, no_code_requested).
Proof.
  destruct (one_shot_consumption default_config alice_store
              (sub_request (alice_submits " 325000 " 7)) 7 8 alice_entry)
    as (Hfirst & _ & _ & Hreplay).
  - vm_compute. reflexivity.
  - vm_compute. reflexivity.
  - vm_compute. discriminate.
  - vm_compute. reflexivity.
  - split; [exact Hfirst |].
    apply (Hreplay (sub_request (alice_submits " 325000 " 9))). reflexivity.
Defined.

(** C3, as the specification words it, fails: a challenge requested with a
    role of blanks only is stored with the empty role, and the successful
    verification reports the role "user" instead. *)
Lemma stored_role_not_reported :
  ~ success_reports_stored_role default_config
      (store_after (send_code default_config ∅ (SendRequest (Some alice) (Some "  ")) 0 0 true))
      (VerifyRequest (Some alice) (Some "100000")) 7 7.
Proof.
  intros Hclaim.
  destruct (Hclaim (Entry "100000" "" 600000 0 0)) as [token Htoken].
  - vm_compute. reflexivity.
  - vm_compute. reflexivity.
  - vm_compute. discriminate.
  - vm_compute. reflexivity.
  - vm_compute in Htoken. discriminate Htoken.
Qed.

(** Wrong submissions made in time, while the ceiling is not reached, are
    all answered with "Invalid code" and add up in [attempts]. *)
Lemma wrong_submissions_count cfg subs :
  forall (s : store) id e,
    s !! id = Some e ->
    attempts e + Z.of_nat (length subs) <= 6 ->
    Forall (wrong_in_time id e) subs ->
    submit_all cfg s subs =
      (<[id := set_attempts e (attempts e + Z.of_nat (length subs))]> s,
       replicate (length subs) invalid_code).
Proof.
  induction subs as [|x rest IH]; intros s id e He Hroom Hwrong.
  - cbn [submit_all length replicate Z.of_nat].
    rewrite Z.add_0_r, set_attempts_same. by rewrite insert_id.
  - apply Forall_cons in Hwrong as [(Hid & Htime & Hcode) Hrest].
    cbn [length] in Hroom. cbn [submit_all length replicate].
    rewrite (verify_code_wrong cfg s (sub_request x) (sub_now x) (sub_now_iat x) e);
      [| by rewrite Hid | done | lia | done].
    rewrite Hid.
    rewrite (IH (<[id := set_attempts e (attempts e + 1)]> s) id
               (set_attempts e (attempts e + 1)));
      [| apply lookup_insert_eq | cbn [attempts set_attempts]; lia | exact Hrest].
    rewrite insert_insert_eq. cbn [attempts set_attempts code role expiresAt lastSentAt].
    replace (attempts e + 1 + Z.of_nat (length rest))
      with (attempts e + Z.of_nat (S (length rest))) by lia.
    reflexivity.
Qed.

(** C2. On a freshly issued challenge ([attempts] 0) for [id], take six
    submissions for [id], each in time and with a wrong code. After the
    first [k] of them, for every [k] up to 6, all [k] replies were "Invalid
    code" and the challenge is still stored, unchanged but for [attempts],
    which is [k]. The seventh submission, in time and with any code, the
    right one included, is answered with "Too many attempts" and the entry
    of [id] is deleted. *)
Theorem attempt_ceiling cfg (s : store) id e subs last :
  s !! id = Some e ->
  attempts e = 0 ->
  length subs = 6%nat ->
  Forall (wrong_in_time id e) subs ->
  identifier_of (sub_request last) = id ->
  sub_now last <= expiresAt e ->
  (forall k, (k <= 6)%nat ->
     submit_all cfg s (take k subs) =
       (<[id := set_attempts e (Z.of_nat k)]> s, replicate k invalid_code)) /\
  verify_code cfg (submit_all cfg s subs).1
      (sub_request last) (sub_now last) (sub_now_iat last)
    = (delete id s, too_many_attempts) /\
  (delete id s) !! id = None.
Proof.
  intros He Hzero Hlen Hwrong Hid Htime.
  split; [| split].
  - intros k Hk.
    assert (Hlk : length (take k subs) = k) by (rewrite length_take; lia).
    rewrite (wrong_submissions_count cfg (take k subs) s id e He);
      [| rewrite Hlk; lia | by apply Forall_take].
    by rewrite Hlk, Hzero.
  - rewrite (wrong_submissions_count cfg subs s id e He); [| rewrite Hlen; lia | done].
    rewrite Hlen, Hzero. cbn [fst].
    rewrite <- Hid.
    rewrite (verify_code_locked cfg _ (sub_request last) (sub_now last) (sub_now_iat last)
               (set_attempts e (0 + Z.of_nat 6)));
      [| apply lookup_insert_eq | done | cbn; lia].
    by rewrite delete_insert_eq.
  - apply lookup_delete_eq.
Qed.

Lemma attempt_ceiling_witness :
  submit_all default_config alice_store
      (alice_submits "000000" 1 :: alice_submits "111111" 2 :: alice_submits "" 3 ::
       alice_submits "325001" 4 :: alice_submits "32500" 5 :: alice_submits "x" 6 :: [])
    = (<[alice := set_attempts alice_entry 6]> alice_store, replicate 6 invalid_code) /\
  verify_code default_config
      (<[alice := set_attempts alice_entry 6]> alice_store)
      (sub_request (alice_submits "325000" 7)) 7 7
    = (delete alice alice_store, too_many_attempts).
Proof.
  destruct (attempt_ceiling default_config alice_store alice alice_entry
              (alice_submits "000000" 1 :: alice_submits "111111" 2 :: alice_submits "" 3 ::
               alice_submits "325001" 4 :: alice_submits "32500" 5 :: alice_submits "x" 6 :: [])
              (alice_submits "325000" 7))
    as (Hsix & Hseventh & _).
  - vm_compute. reflexivity.
  - reflexivity.
  - reflexivity.
  - repeat constructor; vm_compute; congruence.
  - vm_compute. reflexivity.
  - vm_compute. discriminate.
  - pose proof (Hsix 6%nat (le_n 6)) as Hall. cbn [take] in Hall.
    split; [exact Hall |].
    rewrite Hall in Hseventh. exact Hseventh.
Defined.

(* ===================================================================== *)
(** ** Steps of send-code *)
(* ===================================================================== *)

Lemma send_code_throttled cfg (s : store) req now rnd delivered wait :
  valid_email (normalize (req_identifier req) "") = true ->
  cooldown_wait cfg (s !! normalize (req_identifier req) "") now = Some wait ->
  send_code cfg s req now rnd delivered = Sent s (Reply 429 (Error (wait_message wait))) None.
Proof.
  intros Hvalid Hwait. unfold send_code. by rewrite Hvalid, Hwait.
Qed.

Lemma send_code_issued cfg (s : store) req now rnd delivered :
  valid_email (normalize (req_identifier req) "") = true ->
  cooldown_wait cfg (s !! normalize (req_identifier req) "") now = None ->
  store_after (send_code cfg s req now rnd delivered) =
    <[normalize (req_identifier req) "" :=
        new_entry cfg (genCode rnd) (normalize (req_role req) "user") now]> s /\
  replied (send_code cfg s req now rnd delivered) =
    (if delivered then Reply 200 CodeSent else failed_to_send).
Proof.
  intros Hvalid Hwait. unfold send_code. rewrite Hvalid, Hwait.
  by destruct delivered.
Qed.

(** A reply other than the validation error or the throttling error means
    the handler went past both guards. *)
Lemma send_code_reached_delivery cfg (s : store) req now rnd delivered :
  status (replied (send_code cfg s req now rnd delivered)) <> 400 ->
  status (replied (send_code cfg s req now rnd delivered)) <> 429 ->
  valid_email (normalize (req_identifier req) "") = true /\
  cooldown_wait cfg (s !! normalize (req_identifier req) "") now = None.
Proof.
  unfold send_code.
  destruct (valid_email _); cbn [negb]; [| intros H; by destruct H].
  destruct (cooldown_wait _ _ _); [intros _ H; by destruct H | done].
Qed.

Lemma ceil_div_1000_bounds (x c : Z) :
  0 < x -> x <= c * 1000 -> 0 < Js.ceil_div x 1000 <= c.
Proof.
  unfold Js.ceil_div. intros Hpos Hle.
  pose proof (Z.div_mod (- x) 1000 ltac:(lia)) as Hdiv.
  pose proof (Z.mod_pos_bound (- x) 1000 ltac:(lia)) as Hmod.
  lia.
Qed.

(** *** Rounding to binary64 *)

Lemma rne_le (k : Z) (x : Q) : (x < inject_Z k + (1 # 2))%Q -> F64.rne x <= k.
Proof.
  intros Hx. unfold F64.rne.
  pose proof (Qfloor_le x) as Hfl. pose proof (Qlt_floor x) as Hlt.
  assert (Hfk : Qfloor x <= k).
  { apply Z.lt_succ_r. rewrite Zlt_Qlt. unfold Z.succ. rewrite inject_Z_plus.
    change (inject_Z 1) with 1%Q. lra. }
  destruct (Z.eq_dec (Qfloor x) k) as [Heq | Hne].
  - destruct (Qcompare_spec (x - inject_Z (Qfloor x)) (1 # 2)) as [H | H | H].
    + destruct (Z.even _); [lia |]. rewrite Heq in H. lra.
    + lia.
    + rewrite Heq in H. lra.
  - destruct (_ ?= _)%Q; [destruct (Z.even _) | |]; lia.
Qed.

Lemma rne_ge (k : Z) (x : Q) : (inject_Z k - (1 # 2) < x)%Q -> k <= F64.rne x.
Proof.
  intros Hx. unfold F64.rne.
  pose proof (Qfloor_le x) as Hfl. pose proof (Qlt_floor x) as Hlt.
  rewrite inject_Z_plus in Hlt. change (inject_Z 1) with 1%Q in Hlt.
  assert (Hfk : k < Qfloor x + 2).
  { rewrite Zlt_Qlt, inject_Z_plus. change (inject_Z 2) with 2%Q. lra. }
  destruct (Z.eq_dec (Qfloor x + 1) k) as [Heq | Hne].
  - rewrite <- Heq, inject_Z_plus in Hx. change (inject_Z 1) with 1%Q in Hx.
    destruct (Qcompare_spec (x - inject_Z (Qfloor x)) (1 # 2)) as [H | H | H].
    + lra.
    + lra.
    + lia.
  - destruct (_ ?= _)%Q; [destruct (Z.even _) | |]; lia.
Qed.

Lemma pow2_pos (u : Z) : (0 < 2 ^ u)%Q.
Proof. by apply Qpower_0_lt. Qed.

Lemma round_le (x M : Q) (k : Z) :
  ~ (x == 0)%Q ->
  (M == inject_Z k * 2 ^ F64.ulp_exp x)%Q ->
  (x < M + 2 ^ F64.ulp_exp x * (1 # 2))%Q ->
  (F64.round x <= M)%Q.
Proof.
  intros Hx HM Hlt. unfold F64.round.
  destruct (Qeq_bool x 0) eqn:Hz; [apply Qeq_bool_iff in Hz; contradiction |].
  pose proof (pow2_pos (F64.ulp_exp x)) as Hq. rewrite HM.
  apply Qmult_le_compat_r; [| lra]. rewrite <- Zle_Qle. apply rne_le.
  apply Qlt_shift_div_r; [done |]. rewrite HM in Hlt. lra.
Qed.

Lemma round_ge (x M : Q) (k : Z) :
  ~ (x == 0)%Q ->
  (M == inject_Z k * 2 ^ F64.ulp_exp x)%Q ->
  (M - 2 ^ F64.ulp_exp x * (1 # 2) < x)%Q ->
  (M <= F64.round x)%Q.
Proof.
  intros Hx HM Hlt. unfold F64.round.
  destruct (Qeq_bool x 0) eqn:Hz; [apply Qeq_bool_iff in Hz; contradiction |].
  pose proof (pow2_pos (F64.ulp_exp x)) as Hq. rewrite HM.
  apply Qmult_le_compat_r; [| lra]. rewrite <- Zle_Qle. apply rne_ge.
  apply Qlt_shift_div_l; [done |]. rewrite HM in Hlt. lra.
Qed.

Lemma grid (a j u : Z) :
  u <= j -> (inject_Z (a * 2 ^ (j - u)) * 2 ^ u == inject_Z a * 2 ^ j)%Q.
Proof.
  intros Huj. rewrite inject_Z_mult, Zpower_Qpower by lia.
  rewrite <- Qmult_assoc, <- Qpower_plus by discriminate.
  by replace (j - u + u) with j by lia.
Qed.

Lemma Qabs_nonneg_eq (x : Q) : (0 <= x)%Q -> Qabs x = x.
Proof.
  destruct x as [n d]. unfold Qle, Qabs. cbn. intros Hn. f_equal. lia.
Qed.

Lemma ilog2_le_19 (x : Q) : (x < inject_Z (2 ^ 20))%Q -> F64.ilog2 x <= 19.
Proof.
  intros Hx. unfold F64.ilog2. destruct (Qle_bool 1 x) eqn:H1.
  - apply Qle_bool_iff in H1.
    assert (Hfl : 1 <= Qfloor x).
    { change 1 with (Qfloor 1). by apply Qfloor_resp_le. }
    apply Z.lt_succ_r. apply Z.log2_lt_pow2; [lia |].
    rewrite Zlt_Qlt. eapply Qle_lt_trans; [apply Qfloor_le | exact Hx].
  - pose proof (Z.log2_up_nonneg (Qceiling (/ x))). lia.
Qed.

Lemma ilog2_eq_19 (x : Q) :
  (inject_Z (2 ^ 19) <= x)%Q -> (x < inject_Z (2 ^ 20))%Q -> F64.ilog2 x = 19.
Proof.
  intros Hlo Hhi. unfold F64.ilog2.
  assert (H1 : Qle_bool 1 x = true).
  { apply Qle_bool_iff. eapply Qle_trans; [| exact Hlo]. discriminate. }
  rewrite H1. apply Z.log2_unique; [lia |]. split.
  - change (2 ^ 19) with (Qfloor (inject_Z (2 ^ 19))). by apply Qfloor_resp_le.
  - rewrite Zlt_Qlt. eapply Qle_lt_trans; [apply Qfloor_le | exact Hhi].
Qed.

Lemma ulp_exp_small (x : Q) :
  (0 <= x)%Q -> (x < inject_Z (2 ^ 20))%Q -> -1074 <= F64.ulp_exp x <= -33.
Proof.
  intros H0 Hx. unfold F64.ulp_exp. rewrite (Qabs_nonneg_eq x H0).
  pose proof (ilog2_le_19 x Hx). lia.
Qed.

Lemma ulp_exp_top (x : Q) :
  (inject_Z (2 ^ 19) <= x)%Q -> (x < inject_Z (2 ^ 20))%Q -> F64.ulp_exp x = -33.
Proof.
  intros Hlo Hhi. unfold F64.ulp_exp.
  rewrite (Qabs_nonneg_eq x) by (eapply Qle_trans; [| exact Hlo]; discriminate).
  by rewrite (ilog2_eq_19 x Hlo Hhi).
Qed.

Lemma representable_below_1 (r : Q) :
  F64.representable r -> (r < 1)%Q ->
  (r * inject_Z (2 ^ 53) <= inject_Z (2 ^ 53 - 1))%Q.
Proof.
  intros (m & e & Hr & Hm & He) Hlt.
  destruct (Z_le_gt_dec (-53) e) as [Hbig | Hsmall].
  - assert (Hint : (r * inject_Z (2 ^ 53) == inject_Z (m * 2 ^ (e + 53)))%Q).
    { rewrite Hr, inject_Z_mult, !Zpower_Qpower by lia.
      rewrite <- Qmult_assoc, <- Qpower_plus by discriminate. reflexivity. }
    rewrite Hint. rewrite <- Zle_Qle.
    assert (Hn : (inject_Z (m * 2 ^ (e + 53)) < inject_Z (2 ^ 53))%Q).
    { rewrite <- Hint. change (inject_Z (2 ^ 53)) with (1 * inject_Z (2 ^ 53))%Q at 2.
      apply Qmult_lt_compat_r; [reflexivity | exact Hlt]. }
    rewrite <- Zlt_Qlt in Hn. lia.
  - assert (Hpow : (2 ^ e * inject_Z (2 ^ 53) <= 1 # 2)%Q).
    { apply Qle_trans with (2 ^ (-54) * inject_Z (2 ^ 53))%Q; [| discriminate].
      apply Qmult_le_compat_r; [| discriminate].
      apply Qpower_le_compat_l; [lia | discriminate]. }
    assert (Hpos : (0 <= 2 ^ e * inject_Z (2 ^ 53))%Q).
    { apply Qmult_le_0_compat; [apply Qlt_le_weak, Qpower_0_lt; reflexivity | discriminate]. }
    rewrite Hr, <- Qmult_assoc.
    set (w := (2 ^ e * inject_Z (2 ^ 53))%Q) in *.
    destruct (Z_le_gt_dec m 0) as [Hneg | Hmpos].
    + rewrite Zle_Qle in Hneg. change (inject_Z 0) with 0%Q in Hneg.
      change (inject_Z (2 ^ 53 - 1)) with (9007199254740991 # 1)%Q. nra.
    + apply Qle_trans with (inject_Z m * (1 # 2))%Q.
      * rewrite (Qmult_comm (inject_Z m) w), (Qmult_comm (inject_Z m) (1 # 2)).
        apply Qmult_le_compat_r; [exact Hpow |].
        rewrite Zle_Qle in *. change (inject_Z 0) with 0%Q. apply Qlt_le_weak.
        change 0%Q with (inject_Z 0). rewrite <- Zlt_Qlt. lia.
      * assert (Hm' : (inject_Z m < inject_Z (2 ^ 53))%Q) by (rewrite <- Zlt_Qlt; lia).
        change (inject_Z (2 ^ 53 - 1)) with (9007199254740991 # 1)%Q.
        change (inject_Z (2 ^ 53)) with (9007199254740992 # 1)%Q in Hm'.
        assert (H0 : (0 < inject_Z m)%Q) by (change 0%Q with (inject_Z 0); rewrite <- Zlt_Qlt; lia).
        lra.
Qed.

(** For [Math.random()] a double of [0, 1), the product is rounded to at
    most [900000 - 2^-33] and the sum to at most [1000000 - 2^-33]:
    [genCode] yields the decimal writing of an integer of six digits. *)
Lemma genCode_range (r : Q) :
  F64.representable r -> (0 <= r)%Q -> (r < 1)%Q ->
  exists n, 100000 <= n <= 999999 /\ genCode r = Js.of_int n.
Proof.
  intros Hrep Hlo Hhi.
  exists (Qfloor (F64.add (inject_Z 100000) (F64.mul r (inject_Z 900000)))).
  split; [| reflexivity]. unfold F64.add, F64.mul.
  pose proof (representable_below_1 r Hrep Hhi) as Htop.
  change (inject_Z (2 ^ 53)) with (9007199254740992 # 1)%Q in Htop.
  change (inject_Z (2 ^ 53 - 1)) with (9007199254740991 # 1)%Q in Htop.
  set (P := (r * inject_Z 900000)%Q).
  assert (HP0 : (0 <= P)%Q) by (unfold P; change (inject_Z 900000) with (900000 # 1)%Q; lra).
  assert (HPtop : (P * (9007199254740992 # 1) <= 900000 * (9007199254740991 # 1))%Q)
    by (unfold P; change (inject_Z 900000) with (900000 # 1)%Q; lra).
  assert (Hfp : (0 <= F64.round P /\
                 F64.round P <= inject_Z (900000 * 2 ^ 33 - 1) * 2 ^ (-33))%Q).
  { destruct (Qeq_dec P 0) as [Hz | Hnz].
    - unfold F64.round. apply Qeq_bool_iff in Hz. rewrite Hz. split; discriminate.
    - assert (HP20 : (P < inject_Z (2 ^ 20))%Q)
        by (change (inject_Z (2 ^ 20)) with (1048576 # 1)%Q; lra).
      pose proof (ulp_exp_small P HP0 HP20) as Hu.
      pose proof (pow2_pos (F64.ulp_exp P)) as Hq. split.
      + apply (round_ge P 0 0 Hnz); [ring | lra].
      + apply (round_le P _ ((900000 * 2 ^ 33 - 1) * 2 ^ (-33 - F64.ulp_exp P)) Hnz).
        * symmetry. apply grid. lia.
        * destruct (Qlt_le_dec P (inject_Z (2 ^ 19))) as [Hlow | Hhigh].
          -- change (inject_Z (2 ^ 19)) with (524288 # 1)%Q in Hlow.
             change (inject_Z (900000 * 2 ^ 33 - 1) * 2 ^ (-33))%Q
               with ((7730941132799999 # 1) * (1 # 8589934592))%Q. lra.
          -- rewrite (ulp_exp_top P Hhigh HP20).
             change (inject_Z (900000 * 2 ^ 33 - 1) * 2 ^ (-33))%Q
               with ((7730941132799999 # 1) * (1 # 8589934592))%Q.
             change (2 ^ (-33))%Q with (1 # 8589934592)%Q. lra. }
  destruct Hfp as [Hfp0 Hfp1].
  change (inject_Z (900000 * 2 ^ 33 - 1) * 2 ^ (-33))%Q
    with ((7730941132799999 # 1) * (1 # 8589934592))%Q in Hfp1.
  set (fp := F64.round P) in *.
  set (S := (inject_Z 100000 + fp)%Q).
  assert (HS0 : (100000 # 1 <= S)%Q)
    by (unfold S; change (inject_Z 100000) with (100000 # 1)%Q; lra).
  assert (HS1 : (S <= (8589934591999999 # 1) * (1 # 8589934592))%Q)
    by (unfold S; change (inject_Z 100000) with (100000 # 1)%Q; lra).
  assert (Hnz : ~ (S == 0)%Q) by (intros Hz; rewrite Hz in HS0; lra).
  assert (HS20 : (S < inject_Z (2 ^ 20))%Q)
    by (change (inject_Z (2 ^ 20)) with (1048576 # 1)%Q; lra).
  pose proof (ulp_exp_small S ltac:(lra) HS20) as Hu.
  pose proof (pow2_pos (F64.ulp_exp S)) as Hq.
  assert (Hlow : (inject_Z 100000 <= F64.round S)%Q).
  { apply (round_ge S _ (100000 * 2 ^ (0 - F64.ulp_exp S)) Hnz).
    - rewrite grid by lia. change (2 ^ 0)%Q with 1%Q. ring.
    - change (inject_Z 100000) with (100000 # 1)%Q. lra. }
  assert (Hupp : (F64.round S <= inject_Z (1000000 * 2 ^ 33 - 1) * 2 ^ (-33))%Q).
  { apply (round_le S _ ((1000000 * 2 ^ 33 - 1) * 2 ^ (-33 - F64.ulp_exp S)) Hnz).
    - symmetry. apply grid. lia.
    - change (inject_Z (1000000 * 2 ^ 33 - 1) * 2 ^ (-33))%Q
        with ((8589934591999999 # 1) * (1 # 8589934592))%Q. lra. }
  change (inject_Z (1000000 * 2 ^ 33 - 1) * 2 ^ (-33))%Q
    with ((8589934591999999 # 1) * (1 # 8589934592))%Q in Hupp.
  split.
  - change 100000 with (Qfloor (inject_Z 100000)) at 1. by apply Qfloor_resp_le.
  - apply Z.lt_succ_r. change (Z.succ 999999) with 1000000.
    rewrite Zlt_Qlt. eapply Qle_lt_trans; [apply Qfloor_le |].
    change (inject_Z 1000000) with (1000000 # 1)%Q. lra.
Qed.

(** A challenge that was just issued has no attempt on it. *)
Lemma issued_challenge_fresh cfg (s : store) req now rnd delivered :
  replied (send_code cfg s req now rnd delivered) = Reply 200 CodeSent ->
  exists e,
    store_after (send_code cfg s req now rnd delivered) !! normalize (req_identifier req) ""
      = Some e /\
    attempts e = 0 /\ lastSentAt e = now /\ expiresAt e = now + CODE_TTL cfg * 1000.
Proof.
  intros Hreply.
  destruct (send_code_reached_delivery cfg s req now rnd delivered) as [Hvalid Hwait];
    [by rewrite Hreply | by rewrite Hreply |].
  destruct (send_code_issued cfg s req now rnd delivered Hvalid Hwait) as [-> _].
  eexists. split; [apply lookup_insert_eq | done].
Qed.

(* ===================================================================== *)
(** ** Properties of send-code *)
(* ===================================================================== *)

(** C1, as the code has it. send-code writes the challenge into the store
    before it calls the mailer and does not take it back: when the reply
    is the delivery error "Failed to send code", the store holds the newly
    issued challenge under the identifier (fresh code, requested role,
    [expiresAt = now + ttl], [lastSentAt = now], [attempts = 0]) and every
    other identifier keeps the entry, or the absence, it had. *)
Theorem failed_delivery_keeps_challenge cfg (s : store) req now rnd :
  replied (send_code cfg s req now rnd false) = failed_to_send ->
  store_after (send_code cfg s req now rnd false) !! normalize (req_identifier req) ""
    = Some (new_entry cfg (genCode rnd) (normalize (req_role req) "user") now) /\
  (forall id, id <> normalize (req_identifier req) "" ->
     store_after (send_code cfg s req now rnd false) !! id = s !! id).
Proof.
  intros Hreply.
  destruct (send_code_reached_delivery cfg s req now rnd false) as [Hvalid Hwait];
    [by rewrite Hreply | by rewrite Hreply |].
  destruct (send_code_issued cfg s req now rnd false Hvalid Hwait) as [-> _].
  split; [apply lookup_insert_eq |].
  intros id Hother. by apply lookup_insert_ne.
Qed.

Lemma failed_delivery_keeps_challenge_witness :
  store_after (send_code default_config ∅ (SendRequest (Some " A@B.com") None) 0 (1 # 4) false)
    !! alice = Some alice_entry.
Proof.
  apply (failed_delivery_keeps_challenge default_config ∅
           (SendRequest (Some " A@B.com") None) 0 (1 # 4)).
  vm_compute. reflexivity.
Defined.

(** C1, as the specification words it, fails: after a request on the
    empty store whose delivery fails, [a@b.com] has an entry it did not
    have before. *)
Lemma failed_delivery_changes_store :
  ~ failed_delivery_leaves_store default_config ∅
      (SendRequest (Some alice) None) 0 (1 # 4).
Proof.
  intros Hclaim.
  specialize (Hclaim ltac:(vm_compute; reflexivity) alice).
  vm_compute in Hclaim. discriminate Hclaim.
Qed.

(** The decimal writing of an integer reads back as that integer. *)
Lemma of_int_parses (n : Z) :
  option_map Z.of_int (NilZero.int_of_string (Js.of_int n)) = Some n.
Proof.
  unfold Js.of_int.
  assert (Hnorm : NilZero.int_of_string (NilZero.string_of_int (Z.to_int n))
                  = Some (Z.to_int n)).
  { destruct n as [| p | p]; [reflexivity | |]; apply NilZero.isi; cbn [Z.to_int];
      try discriminate; intros [= H]; by apply Unsigned.to_uint_nonnil in H. }
  rewrite Hnorm. cbn [option_map]. by rewrite DecimalZ.of_to.
Qed.

Lemma ceil_div_1000_exact (x : Z) :
  (Js.ceil_div x 1000 - 1) * 1000 < x <= Js.ceil_div x 1000 * 1000.
Proof.
  unfold Js.ceil_div.
  pose proof (Z.div_mod (- x) 1000 ltac:(lia)) as Hdiv.
  pose proof (Z.mod_pos_bound (- x) 1000 ltac:(lia)) as Hmod.
  lia.
Qed.

(** C5. For a valid identifier with a stored challenge, a request at an
    instant [now] not before [lastSentAt] and less than the cooldown after
    it is answered with status 429 and the text "Please wait", the decimal
    writing of a number of seconds, "s before requesting again". That
    number is the ceiling of the remaining milliseconds over 1000 (the
    one integer [wait] with [(wait - 1) * 1000 < remaining <= wait * 1000]),
    it is above 0 and at most the cooldown in seconds, and the store is
    returned as it was, nothing being passed to the mailer. *)
Theorem cooldown_throttles cfg (s : store) req now rnd delivered prev :
  valid_email (normalize (req_identifier req) "") = true ->
  s !! normalize (req_identifier req) "" = Some prev ->
  lastSentAt prev <= now ->
  now - lastSentAt prev < RESEND_COOLDOWN cfg * 1000 ->
  exists wait digits,
    send_code cfg s req now rnd delivered =
      Sent s
        (Reply 429 (Error ("Please wait " ++ digits ++ "s before requesting again")%string))
        None /\
    option_map Z.of_int (NilZero.int_of_string digits) = Some wait /\
    (wait - 1) * 1000 < RESEND_COOLDOWN cfg * 1000 - (now - lastSentAt prev) <= wait * 1000 /\
    0 < wait <= RESEND_COOLDOWN cfg.
Proof.
  intros Hvalid Hprev Hmono Hcool.
  exists (Js.ceil_div (RESEND_COOLDOWN cfg * 1000 - (now - lastSentAt prev)) 1000).
  exists (Js.of_int (Js.ceil_div (RESEND_COOLDOWN cfg * 1000 - (now - lastSentAt prev)) 1000)).
  split; [| split; [| split]].
  - rewrite (send_code_throttled cfg s req now rnd delivered
               (Js.ceil_div (RESEND_COOLDOWN cfg * 1000 - (now - lastSentAt prev)) 1000));
      [reflexivity | exact Hvalid |].
    rewrite Hprev. unfold cooldown_wait.
    destruct (Z.ltb_spec (now - lastSentAt prev) (RESEND_COOLDOWN cfg * 1000)); [done | lia].
  - apply of_int_parses.
  - apply ceil_div_1000_exact.
  - apply ceil_div_1000_bounds; lia.
Qed.

Lemma cooldown_throttles_witness :
  exists wait digits,
    send_code default_config alice_store (SendRequest (Some alice) (Some "admin")) 999 0 true
      = Sent alice_store
          (Reply 429 (Error ("Please wait " ++ digits ++ "s before requesting again")%string))
          None /\
    option_map Z.of_int (NilZero.int_of_string digits) = Some wait /\
    (wait - 1) * 1000 < 60 * 1000 - (999 - 0) <= wait * 1000 /\
    0 < wait <= 60.
Proof.
  apply (cooldown_throttles default_config alice_store
           (SendRequest (Some alice) (Some "admin")) 999 0 true alice_entry).
  - vm_compute. reflexivity.
  - vm_compute. reflexivity.
  - vm_compute. discriminate.
  - vm_compute. reflexivity.
Defined.

(** C6. The store holds at most one challenge per identifier: two entries
    listed under the same identifier are the same entry. Every request
    answered with "Code sent" leaves, under its identifier, exactly the
    fresh challenge (the generated code, the requested role, [expiresAt =
    now + ttl], [lastSentAt = now], [attempts = 0]), whatever was stored
    there before, and leaves the other identifiers as they were. *)
Theorem issuance_overwrites cfg (s : store) req now rnd delivered :
  replied (send_code cfg s req now rnd delivered) = Reply 200 CodeSent ->
  store_after (send_code cfg s req now rnd delivered) =
    <[normalize (req_identifier req) "" :=
        Entry (genCode rnd) (normalize (req_role req) "user")
          (now + CODE_TTL cfg * 1000) now 0]> (delete (normalize (req_identifier req) "") s) /\
  store_after (send_code cfg s req now rnd delivered) !! normalize (req_identifier req) ""
    = Some (Entry (genCode rnd) (normalize (req_role req) "user")
              (now + CODE_TTL cfg * 1000) now 0) /\
  (forall id, id <> normalize (req_identifier req) "" ->
     store_after (send_code cfg s req now rnd delivered) !! id = s !! id) /\
  (forall id e1 e2,
     (id, e1) ∈ map_to_list (store_after (send_code cfg s req now rnd delivered)) ->
     (id, e2) ∈ map_to_list (store_after (send_code cfg s req now rnd delivered)) ->
     e1 = e2).
Proof.
  intros Hreply.
  destruct (send_code_reached_delivery cfg s req now rnd delivered) as [Hvalid Hwait];
    [by rewrite Hreply | by rewrite Hreply |].
  destruct (send_code_issued cfg s req now rnd delivered Hvalid Hwait) as [-> _].
  unfold new_entry. split; [by rewrite insert_delete_eq |].
  split; [apply lookup_insert_eq |].
  split; [intros id Hother; by apply lookup_insert_ne |].
  intros id e1 e2 H1%elem_of_map_to_list H2%elem_of_map_to_list. congruence.
Qed.

Lemma issuance_overwrites_witness :
  store_after (send_code default_config (<[alice := set_attempts alice_entry 4]> alice_store)
                 (SendRequest (Some alice) (Some " Admin ")) 60000 (1 # 2) true)
    !! alice = Some (Entry "550000" "admin" 660000 60000 0).
Proof.
  apply (issuance_overwrites default_config (<[alice := set_attempts alice_entry 4]> alice_store)
           (SendRequest (Some alice) (Some " Admin ")) 60000 (1 # 2) true).
  vm_compute. reflexivity.
Defined.

(* ===================================================================== *)
(** ** The admin allow-list *)
(* ===================================================================== *)

Lemma includes_In (l : list string) (x : string) :
  Js.includes l x = true <-> In x l.
Proof.
  unfold Js.includes. rewrite existsb_exists. split.
  - intros (y & Hy & Heq). apply String.eqb_eq in Heq. by subst.
  - intros Hx. exists x. split; [exact Hx | apply String.eqb_refl].
Qed.

Lemma denied_true cfg id :
  ADMIN_EMAILS cfg <> [] -> ~ In id (ADMIN_EMAILS cfg) -> denied cfg id = true.
Proof.
  intros Hlist Hout. unfold denied.
  destruct (ADMIN_EMAILS cfg) as [|a l] eqn:Hl; [done |].
  cbn [length]. apply andb_true_intro. split.
  - apply Z.gtb_lt. lia.
  - apply negb_true_iff. apply not_true_is_false. by rewrite includes_In.
Qed.

Lemma denied_false cfg id :
  ADMIN_EMAILS cfg = [] \/ In id (ADMIN_EMAILS cfg) -> denied cfg id = false.
Proof.
  unfold denied. intros [-> | Hin]; [reflexivity |].
  apply includes_In in Hin. rewrite Hin. apply andb_false_r.
Qed.

Lemma or_default_truthy (x : option string) (d d' : string) :
  d <> "" -> Js.or_default (Some (Js.or_default x d)) d' = Js.or_default x d.
Proof.
  intros Hd. unfold Js.or_default at 1.
  destruct (String.eqb_spec (Js.or_default x d) "") as [Hempty|]; [| reflexivity].
  exfalso. unfold Js.or_default in Hempty. destruct x as [v|]; [| done].
  destruct (String.eqb_spec v ""); done.
Qed.

(** C9, as the code has it. admin-send-code checks the syntax of the
    identifier first: one that fails it is answered with the validation
    error whatever the allow-list. With a non-empty allow-list, a request
    for a syntactically valid identifier that is not on the list is
    answered with the forbidden error, which is not the validation error,
    and the store is returned as it was, nothing being mailed. With an
    empty allow-list, or for an identifier on the list, the request
    proceeds as send-code does for the same request with the role
    defaulted to "admin": the same store and the same reply, no message
    when send-code hands none to the mailer, and otherwise a message from
    the same sender to the same recipient, with the admin subject, whose
    text carries the code stored for that recipient. *)
Theorem admin_allow_list cfg (s : store) req now rnd delivered :
  (valid_email (normalize (req_identifier req) "") = false ->
   admin_send_code cfg s req now rnd delivered = Sent s email_required None) /\
  (valid_email (normalize (req_identifier req) "") = true ->
   ADMIN_EMAILS cfg <> [] ->
   ~ In (normalize (req_identifier req) "") (ADMIN_EMAILS cfg) ->
   admin_send_code cfg s req now rnd delivered = Sent s access_denied None /\
   access_denied <> email_required /\
   status access_denied <> status email_required) /\
  (ADMIN_EMAILS cfg = [] \/ In (normalize (req_identifier req) "") (ADMIN_EMAILS cfg) ->
   let ordinary :=
     send_code cfg s
       (SendRequest (req_identifier req) (Some (Js.or_default (req_role req) "admin")))
       now rnd delivered in
   store_after (admin_send_code cfg s req now rnd delivered) = store_after ordinary /\
   replied (admin_send_code cfg s req now rnd delivered) = replied ordinary /\
   (outbox ordinary = None ->
    outbox (admin_send_code cfg s req now rnd delivered) = None) /\
   (forall m, outbox ordinary = Some m ->
      exists e,
        store_after (admin_send_code cfg s req now rnd delivered) !! mail_to m = Some e /\
        outbox (admin_send_code cfg s req now rnd delivered) =
          Some (Mail (mail_from m) (mail_to m) "Team Plus Admin - Verification Code"
                  ("Your admin verification code is " ++ code e ++ ". It expires in "
                   ++ Js.of_int (CODE_TTL cfg / 60) ++ " minutes.")%string))).
Proof.
  split; [| split].
  - intros Hinvalid. unfold admin_send_code. by rewrite Hinvalid.
  - intros Hvalid Hlist Hout. split; [| split; discriminate].
    unfold admin_send_code. rewrite Hvalid. cbn [negb].
    by rewrite denied_true.
  - intros Hallowed. cbn zeta.
    unfold admin_send_code, send_code. cbn [req_identifier req_role].
    replace (normalize (Some (Js.or_default (req_role req) "admin")) "user")
      with (normalize (req_role req) "admin")
      by (unfold normalize; by rewrite or_default_truthy).
    rewrite (denied_false _ _ Hallowed).
    destruct (valid_email _); cbn [negb]; [| done].
    destruct (cooldown_wait _ _ _); [done |].
    assert (Hmail : forall m,
      Some (Mail (Js.or_default (env_SMTP_FROM cfg) "admin@teamplus.cloud")
              (normalize (req_identifier req) "") "Your Team Plus verification code"
              ("Your verification code is " ++ genCode rnd ++ "." ++ expiry_note cfg)%string)
        = Some m ->
      exists e,
        (<[normalize (req_identifier req) "" :=
             new_entry cfg (genCode rnd) (normalize (req_role req) "admin") now]> s)
          !! mail_to m = Some e /\
        Some (Mail (Js.or_default (env_SMTP_FROM cfg) "admin@teamplus.cloud")
                (normalize (req_identifier req) "") "Team Plus Admin - Verification Code"
                ("Your admin verification code is " ++ genCode rnd ++ "." ++ expiry_note cfg)%string)
          = Some (Mail (mail_from m) (mail_to m) "Team Plus Admin - Verification Code"
                    ("Your admin verification code is " ++ code e ++ ". It expires in "
                     ++ Js.of_int (CODE_TTL cfg / 60) ++ " minutes.")%string)).
    { intros m [= <-]. cbn [mail_to mail_from]. eexists. split; [apply lookup_insert_eq |].
      reflexivity. }
    destruct delivered; cbn [store_after replied outbox]; repeat split; done.
Qed.

Lemma admin_allow_list_witness :
  admin_send_code (Config "k" 600 60 None (Some "x@y.com")) ∅
      (SendRequest (Some "z@y.com") None) 0 0 true
    = Sent ∅ access_denied None /\
  admin_send_code (Config "k" 600 60 None (Some "x@y.com")) ∅
      (SendRequest (Some "not an email") None) 0 0 true
    = Sent ∅ email_required None /\
  replied (admin_send_code (Config "k" 600 60 None (Some "x@y.com")) ∅
             (SendRequest (Some "x@y.com") None) 0 0 true)
    = Reply 200 CodeSent /\
  outbox (admin_send_code (Config "k" 600 60 None (Some "x@y.com")) ∅
            (SendRequest (Some "x@y.com") None) 0 0 true)
    = Some (Mail "admin@teamplus.cloud" "x@y.com" "Team Plus Admin - Verification Code"
              "Your admin verification code is 100000. It expires in 10 minutes.").
Proof.
  destruct (admin_allow_list (Config "k" 600 60 None (Some "x@y.com")) ∅
              (SendRequest (Some "z@y.com") None) 0 0 true) as (_ & Hdenied & _).
  destruct (admin_allow_list (Config "k" 600 60 None (Some "x@y.com")) ∅
              (SendRequest (Some "not an email") None) 0 0 true) as (Hinvalid & _).
  destruct (admin_allow_list (Config "k" 600 60 None (Some "x@y.com")) ∅
              (SendRequest (Some "x@y.com") None) 0 0 true) as (_ & _ & Hallowed).
  destruct Hallowed as (_ & Hreply & _ & Hmail); [right; vm_compute; left; reflexivity |].
  destruct (Hmail (Mail "admin@teamplus.cloud" "x@y.com" "Your Team Plus verification code"
                     "Your verification code is 100000. It expires in 10 minutes."))
    as (e & He & Hout); [vm_compute; reflexivity |].
  split; [| split; [| split]].
  - apply Hdenied.
    + vm_compute. reflexivity.
    + vm_compute. discriminate.
    + vm_compute. intros [H | []]. discriminate H.
  - apply Hinvalid. vm_compute. reflexivity.
  - rewrite Hreply. vm_compute. reflexivity.
  - vm_compute in He. injection He as <-. exact Hout.
Defined.

(** C9, as the specification words it, fails: with the allow-list
    [x@y.com], the identifier [bob] is not on the list, and the request is
    answered with the validation error, not with the forbidden one. *)
Lemma unlisted_invalid_not_forbidden :
  ~ unlisted_is_forbidden (Config "k" 600 60 None (Some "x@y.com")) ∅
      (SendRequest (Some "bob") None) 0 0 true.
Proof.
  intros Hclaim.
  assert (Hreply : replied (admin_send_code (Config "k" 600 60 None (Some "x@y.com")) ∅
                              (SendRequest (Some "bob") None) 0 0 true) = access_denied).
  { apply Hclaim.
    - vm_compute. discriminate.
    - vm_compute. intros [H | []]. discriminate H. }
  vm_compute in Hreply. discriminate Hreply.
Qed.

(* ===================================================================== *)
(** ** Tokens *)
(* ===================================================================== *)

Lemma mint_claims cfg id r now :
  mint cfg id r now =
    Jwt.Jws (JWT_SECRET cfg)
      (Jwt.Claims id r (now / 1000) (Some (now / 1000 + 86400))).
Proof.
  unfold mint, Jwt.sign, Jwt.expiresIn_24h. cbn [Jwt.iat Jwt.email Jwt.role].
  destruct (Z.eqb_spec (now / 1000) 0) as [->|]; reflexivity.
Qed.

(** C7. A token minted for [id] and [role] at the instant [t0] and
    presented to verify-token at the instant [t1] is answered with the
    claims [id] and [role] as long as the clock, in whole seconds, is
    below the second of minting plus 86400, which holds at [t0] itself and
    up to 24 hours less one second after it. From 24 hours after [t0] on,
    and more generally once the clock in seconds has reached that bound,
    the answer is "Invalid or expired token". *)
Theorem token_round_trip cfg id r t0 t1 :
  (t1 / 1000 < t0 / 1000 + 86400 ->
   verify_token cfg (Some (mint cfg id r t0)) t1 = Reply 200 (TokenValid id r)) /\
  (t0 <= t1 <= t0 + 86399000 ->
   verify_token cfg (Some (mint cfg id r t0)) t1 = Reply 200 (TokenValid id r)) /\
  (t0 / 1000 + 86400 <= t1 / 1000 ->
   verify_token cfg (Some (mint cfg id r t0)) t1 = invalid_or_expired) /\
  (t0 + 86400000 <= t1 ->
   verify_token cfg (Some (mint cfg id r t0)) t1 = invalid_or_expired).
Proof.
  assert (Hin : t1 / 1000 < t0 / 1000 + 86400 ->
    verify_token cfg (Some (mint cfg id r t0)) t1 = Reply 200 (TokenValid id r)).
  { intros Hwin. rewrite mint_claims. unfold verify_token, Jwt.verify.
    cbn [Jwt.falsy Jwt.exp]. rewrite String.eqb_refl. cbn [negb].
    destruct (Z.geb_spec (t1 / 1000) (t0 / 1000 + 86400)); [lia | reflexivity]. }
  assert (Hout : t0 / 1000 + 86400 <= t1 / 1000 ->
    verify_token cfg (Some (mint cfg id r t0)) t1 = invalid_or_expired).
  { intros Hlate. rewrite mint_claims. unfold verify_token, Jwt.verify.
    cbn [Jwt.falsy Jwt.exp]. rewrite String.eqb_refl. cbn [negb].
    destruct (Z.geb_spec (t1 / 1000) (t0 / 1000 + 86400)); [reflexivity | lia]. }
  pose proof (Z.div_mod t0 1000 ltac:(lia)) as Hd0.
  pose proof (Z.mod_pos_bound t0 1000 ltac:(lia)) as Hm0.
  pose proof (Z.div_mod t1 1000 ltac:(lia)) as Hd1.
  pose proof (Z.mod_pos_bound t1 1000 ltac:(lia)) as Hm1.
  repeat split; intros; [apply Hin | apply Hin | apply Hout | apply Hout]; lia.
Qed.

Lemma token_round_trip_witness :
  verify_token default_config (Some (mint default_config alice "user" 1700000000123))
      1700000000123
    = Reply 200 (TokenValid alice "user") /\
  verify_token default_config (Some (mint default_config alice "user" 1700000000123))
      1700086400123
    = invalid_or_expired.
Proof.
  destruct (token_round_trip default_config alice "user" 1700000000123 1700000000123)
    as (Hnow & _).
  destruct (token_round_trip default_config alice "user" 1700000000123 1700086400123)
    as (_ & _ & _ & Hlate).
  split; [apply Hnow | apply Hlate]; vm_compute; [reflexivity | discriminate].
Defined.

(** C8. A presented token that is malformed, or carries a signature made
    with another key, or has reached its expiry, is answered by
    verify-token with one and the same reply, 401 "Invalid or expired
    token", whichever of the three it is. *)
Theorem invalid_tokens_indistinguishable cfg t now :
  Jwt.falsy t = false ->
  malformed t \/ bad_signature cfg t \/ expired t now ->
  verify_token cfg (Some t) now = invalid_or_expired.
Proof.
  intros Hgiven Hbad. unfold verify_token. rewrite Hgiven.
  destruct Hbad as [[v ->] | [(key & c & -> & Hkey) | (key & c & e & -> & Hexp & Hlate)]].
  - reflexivity.
  - unfold Jwt.verify.
    destruct (String.eqb_spec key (JWT_SECRET cfg)); [contradiction | reflexivity].
  - unfold Jwt.verify. rewrite Hexp.
    destruct (negb _); [reflexivity |].
    destruct (Z.geb_spec (now / 1000) e); [reflexivity | lia].
Qed.

Lemma invalid_tokens_indistinguishable_witness :
  verify_token default_config (Some (Jwt.Opaque "abc.def")) 5000 = invalid_or_expired /\
  verify_token default_config (Some (Jwt.Jws "other" (Jwt.Claims alice "admin" 0 (Some 86400)))) 5000
    = invalid_or_expired /\
  verify_token default_config (Some (mint default_config alice "user" 0)) 86400000
    = invalid_or_expired.
Proof.
  split; [| split].
  - apply (invalid_tokens_indistinguishable default_config (Jwt.Opaque "abc.def") 5000);
      [reflexivity |].
    left. by exists "abc.def".
  - apply (invalid_tokens_indistinguishable default_config
             (Jwt.Jws "other" (Jwt.Claims alice "admin" 0 (Some 86400))) 5000);
      [reflexivity |].
    right. left. eexists _, _. split; [reflexivity | discriminate].
  - apply (invalid_tokens_indistinguishable default_config
             (mint default_config alice "user" 0) 86400000); [reflexivity |].
    right. right. eexists _, _, _. split; [reflexivity |]. split; [reflexivity |].
    vm_compute. discriminate.
Defined.

(** The token of a successful verify-code, presented within its validity,
    is answered with the identifier and the role of that reply. *)
Lemma verified_token_validates cfg (s : store) req now now_iat e t1 :
  s !! identifier_of req = Some e ->
  code_of req = code e ->
  now <= expiresAt e ->
  attempts e < 6 ->
  t1 / 1000 < now_iat / 1000 + 86400 ->
  exists token,
    (verify_code cfg s req now now_iat).2
      = Reply 200 (EmailVerified token (reported_role e) (identifier_of req)) /\
    verify_token cfg (Some token) t1
      = Reply 200 (TokenValid (identifier_of req) (reported_role e)).
Proof.
  intros He Hcode Hfresh Hfew Hwin.
  rewrite (verify_code_match cfg s req now now_iat e He Hfresh Hfew Hcode).
  eexists. split; [reflexivity |].
  rewrite mint_claims. unfold verify_token, Jwt.verify.
  cbn [Jwt.falsy Jwt.exp Jwt.email Jwt.role]. rewrite String.eqb_refl. cbn [negb].
  destruct (Z.geb_spec (t1 / 1000) (now_iat / 1000 + 86400)); [lia | reflexivity].
Qed.

(* ===================================================================== *)
(** ** The matcher and the language of a regular expression *)
(* ===================================================================== *)

Lemma append_empty (s1 s2 : string) :
  (s1 ++ s2)%string = EmptyString -> s1 = EmptyString /\ s2 = EmptyString.
Proof.
  destruct s1 as [| c s1]; intros H.
  - split; [reflexivity | exact H].
  - discriminate H.
Qed.

Lemma nullable_lang r : Re.nullable r = true <-> re_lang r EmptyString.
Proof.
  split.
  - induction r as [| | p | r1 IH1 r2 IH2 | r1 IH1 r2 IH2 | r IH]; cbn [Re.nullable]; intros Hn.
    + discriminate.
    + constructor.
    + discriminate.
    + apply andb_prop in Hn as [H1 H2].
      apply (lang_cat r1 r2 EmptyString EmptyString); auto.
    + apply orb_prop in Hn as [H1 | H2]; [apply lang_alt_l | apply lang_alt_r]; auto.
    + constructor.
  - intros Hl. remember EmptyString as s eqn:Hs.
    induction Hl as [ | p c Hp | r1 r2 s1 s2 _ IH1 _ IH2 | r1 r2 s _ IH | r1 r2 s _ IH
                    | r | r s1 s2 _ _ _ _ ]; cbn [Re.nullable]; try reflexivity.
    + discriminate.
    + apply append_empty in Hs as [-> ->]. by rewrite IH1, IH2.
    + by rewrite IH.
    + rewrite IH by done. apply orb_true_r.
Qed.

Lemma deriv_sound c r : forall s, re_lang (Re.deriv c r) s -> re_lang r (String c s).
Proof.
  induction r as [| | p | r1 IH1 r2 IH2 | r1 IH1 r2 IH2 | r IH]; cbn [Re.deriv]; intros s Hl.
  - inversion Hl.
  - inversion Hl.
  - destruct (p c) eqn:Hp; inversion Hl; subst. by constructor.
  - assert (Hcat : forall u, re_lang (Re.Cat (Re.deriv c r1) r2) u ->
                             re_lang (Re.Cat r1 r2) (String c u)).
    { intros u Hu. inversion Hu as [ | | ? ? s1 s2 H1 H2 | | | | ]; subst.
      apply (lang_cat r1 r2 (String c s1) s2); auto. }
    destruct (Re.nullable r1) eqn:Hn; [| by apply Hcat].
    inversion Hl as [ | | | ? ? ? Hleft | ? ? ? Hright | | ]; subst; [by apply Hcat |].
    apply (lang_cat r1 r2 EmptyString (String c s)); [by apply nullable_lang | auto].
  - inversion Hl; subst; [apply lang_alt_l | apply lang_alt_r]; auto.
  - inversion Hl as [ | | ? ? s1 s2 H1 H2 | | | | ]; subst.
    apply (lang_star_cons r (String c s1) s2); auto.
Qed.

Lemma deriv_complete c r s : re_lang r (String c s) -> re_lang (Re.deriv c r) s.
Proof.
  intros Hl. remember (String c s) as cs eqn:Hcs. revert s Hcs.
  induction Hl as [ | p d Hp | r1 r2 s1 s2 H1 IH1 H2 IH2 | r1 r2 u _ IH | r1 r2 u _ IH
                  | r | r s1 s2 H1 IH1 H2 IH2 ]; intros s Hcs; cbn [Re.deriv].
  - discriminate.
  - injection Hcs as -> <-. rewrite Hp. constructor.
  - destruct s1 as [| d s1'].
    + cbn in Hcs. apply nullable_lang in H1. rewrite H1.
      apply lang_alt_r. by apply IH2.
    + injection Hcs as -> <-.
      assert (Hcat : re_lang (Re.Cat (Re.deriv c r1) r2) (s1' ++ s2)%string)
        by (constructor; auto).
      destruct (Re.nullable r1); [by apply lang_alt_l | done].
  - apply lang_alt_l. by apply IH.
  - apply lang_alt_r. by apply IH.
  - discriminate.
  - destruct s1 as [| d s1'].
    + cbn in Hcs. specialize (IH2 s Hcs). exact IH2.
    + injection Hcs as -> <-. constructor; auto.
Qed.

(** [Re.test] decides the language. *)
Lemma test_lang s : forall r, Re.test r s = true <-> re_lang r s.
Proof.
  induction s as [| c s IH]; intros r; cbn [Re.test].
  - apply nullable_lang.
  - rewrite IH. split; [apply deriv_sound | apply deriv_complete].
Qed.

Lemma star_class_lang p s :
  re_lang (Re.Star (Re.Class p)) s <-> all_chars p s = true.
Proof.
  split.
  - intros Hl. remember (Re.Star (Re.Class p)) as r eqn:Hr.
    induction Hl as [ | | | | | r' | r' s1 s2 H1 _ _ IH2 ]; try discriminate.
    + reflexivity.
    + injection Hr as ->. inversion H1; subst.
      cbn [String.append all_chars]. apply andb_true_intro. auto.
  - induction s as [| c s IH]; cbn [all_chars]; intros Hall.
    + constructor.
    + apply andb_prop in Hall as [Hc Hs].
      apply (lang_star_cons _ (String c EmptyString) s); [by constructor | auto].
Qed.

Lemma plus_class_lang p s :
  re_lang (Re.Plus (Re.Class p)) s <-> s <> EmptyString /\ all_chars p s = true.
Proof.
  unfold Re.Plus. split.
  - intros Hl. inversion Hl as [ | | ? ? s1 s2 H1 H2 | | | | ]; subst.
    inversion H1; subst. apply star_class_lang in H2.
    split; [discriminate |]. cbn [String.append all_chars]. apply andb_true_intro. auto.
  - intros [Hne Hall]. destruct s as [| c s]; [done |].
    cbn [all_chars] in Hall. apply andb_prop in Hall as [Hc Hs].
    apply (lang_cat _ _ (String c EmptyString) s);
      [by constructor | by apply star_class_lang].
Qed.

Lemma chr_lang c s : re_lang (Re.Chr c) s <-> s = String c EmptyString.
Proof.
  unfold Re.Chr. split.
  - intros Hl. inversion Hl as [ | ? d Hd | | | | | ]; subst.
    apply Ascii.eqb_eq in Hd. by subst.
  - intros ->. constructor. apply Ascii.eqb_refl.
Qed.

Lemma test_plus_class p s :
  Re.test (Re.Plus (Re.Class p)) s = true <-> s <> EmptyString /\ all_chars p s = true.
Proof. rewrite test_lang. apply plus_class_lang. Qed.

Lemma all_chars_impl (p q : ascii -> bool) s :
  (forall c, p c = true -> q c = true) -> all_chars p s = true -> all_chars q s = true.
Proof.
  intros Hpq. induction s as [| c s IH]; cbn [all_chars]; [done |].
  intros [Hc Hs]%andb_prop. apply andb_true_intro. auto.
Qed.

(* ===================================================================== *)
(** ** Which identifiers and which directory names are accepted *)
(* ===================================================================== *)

(** X1. The send handlers accept an identifier exactly when it reads
    local [@] domain [.] suffix, each of the three parts being a non-empty
    run of characters other than white space and [@]. *)
Theorem valid_email_shape (identifier : string) :
  valid_email identifier = true <->
  exists loc dom suffix,
    identifier = (loc ++ "@" ++ dom ++ "." ++ suffix)%string /\
    email_part loc /\ email_part dom /\ email_part suffix.
Proof.
  unfold valid_email, EMAIL_RE, email_part. split.
  - intros Hv. apply negb_true_iff, orb_false_iff in Hv as [_ Ht].
    apply negb_false_iff, test_lang in Ht.
    inversion Ht as [ | | ? ? loc s1 Hloc H1 | | | | ]; subst.
    inversion H1 as [ | | ? ? at_ s2 Hat H2 | | | | ]; subst.
    inversion H2 as [ | | ? ? dom s3 Hdom H3 | | | | ]; subst.
    inversion H3 as [ | | ? ? dot suffix Hdot Hsuffix | | | | ]; subst.
    apply chr_lang in Hat as ->. apply chr_lang in Hdot as ->.
    apply plus_class_lang in Hloc, Hdom, Hsuffix.
    by exists loc, dom, suffix.
  - intros (loc & dom & suffix & -> & Hloc & Hdom & Hsuffix).
    apply negb_true_iff, orb_false_iff. split.
    + destruct loc; [by destruct Hloc | reflexivity].
    + apply negb_false_iff, test_lang.
      apply lang_cat; [by apply plus_class_lang |].
      apply lang_cat; [by apply chr_lang |].
      apply lang_cat; [by apply plus_class_lang |].
      apply lang_cat; [by apply chr_lang | by apply plus_class_lang].
Qed.

Lemma name_classes_agree c : rename_name_char c = create_name_char c.
Proof. unfold rename_name_char, create_name_char. by destruct (in_range _ _ c), (in_range _ _ c), (in_range _ _ c), (Js.is_space c), (Ascii.eqb c "-"), (Ascii.eqb c "_"). Qed.

Lemma create_char_plain c : create_name_char c = true -> plain_char c = true.
Proof.
  destruct c as [[] [] [] [] [] [] [] []]; vm_compute; congruence.
Qed.

(** X2. POST /api/directories calls [mkdir] only for a name that is
    non-empty and made of letters, digits, white space, [-] and [_], hence
    without [/], [\] or [.], and only when nothing exists at the joined
    path; then the one call it makes is the [mkdir] of that path. Every
    other request is answered without a call that changes the file
    system. *)
Theorem create_directory_guarded env name :
  fs_calls (create_directory env name) <> [] ->
  exists n,
    name = Some n /\ n <> EmptyString /\
    all_chars create_name_char n = true /\ all_chars plain_char n = true /\
    existsSync env (path_join env [FIRMWARE_DIR env; n]) = false /\
    fs_calls (create_directory env name) = [Mkdir (path_join env [FIRMWARE_DIR env; n])].
Proof.
  unfold create_directory. destruct name as [n|]; [| done].
  destruct (Js.falsy n || negb (Re.test CREATE_NAME_RE n)) eqn:Hguard; [done |].
  apply orb_false_iff in Hguard as [_ Ht]. apply negb_false_iff in Ht.
  apply test_plus_class in Ht as [Hne Hall].
  destruct (existsSync env _) eqn:Hex; [done |].
  intros _. exists n. repeat split; try done.
  - eapply all_chars_impl; [apply create_char_plain | done].
  - by destruct (throws env _).
Qed.

Lemma create_directory_guarded_witness :
  fs_calls (create_directory example_node (Some "esp 8266_v2"))
    = [Mkdir "/srv/public/firmware/esp 8266_v2"].
Proof.
  destruct (create_directory_guarded example_node (Some "esp 8266_v2")) as (n & Hn & _ & _ & _ & _ & Hcalls).
  - vm_compute. discriminate.
  - injection Hn as <-. exact Hcalls.
Defined.

(** X3. The three name checks compare as follows: the rename of a
    directory accepts exactly the new names its creation accepts, and the
    command-line tool accepts exactly those among them that hold no white
    space. *)
Theorem name_checks_compared (name : string) :
  Re.test RENAME_NAME_RE name = Re.test CREATE_NAME_RE name /\
  (cli_name_ok name = true <->
   Re.test CREATE_NAME_RE name = true /\
   all_chars (fun c => negb (Js.is_space c)) name = true).
Proof.
  split.
  - apply eq_true_iff_eq. unfold RENAME_NAME_RE, CREATE_NAME_RE.
    rewrite !test_plus_class.
    assert (Hsame : all_chars rename_name_char name = all_chars create_name_char name).
    { induction name as [| c s IH]; cbn [all_chars]; [done |].
      by rewrite IH, name_classes_agree. }
    by rewrite Hsame.
  - unfold cli_name_ok, CLI_NAME_RE, CREATE_NAME_RE. rewrite negb_true_iff, orb_false_iff.
    rewrite negb_false_iff, !test_plus_class. unfold Js.falsy.
    assert (Hsplit : all_chars cli_name_char name = true <->
              all_chars create_name_char name = true /\
              all_chars (fun c => negb (Js.is_space c)) name = true).
    { induction name as [| c s IH]; cbn [all_chars]; [done |].
      rewrite !andb_true_iff, IH.
      assert (Hc : cli_name_char c = true <->
                create_name_char c = true /\ negb (Js.is_space c) = true)
        by (destruct c as [[] [] [] [] [] [] [] []]; vm_compute; intuition congruence).
      tauto. }
    rewrite Hsplit. split.
    + intros (_ & Hne & Hc & Hs). done.
    + intros ((Hne & Hc) & Hs). repeat split; try done.
      by apply String.eqb_neq.
Qed.

(* ===================================================================== *)
(** ** Normal forms of identifiers *)
(* ===================================================================== *)

Lemma lower_char_space c : Js.is_space (Js.lower_char c) = Js.is_space c.
Proof. destruct c as [[] [] [] [] [] [] [] []]; reflexivity. Qed.

Lemma lower_char_idem c : Js.lower_char (Js.lower_char c) = Js.lower_char c.
Proof. destruct c as [[] [] [] [] [] [] [] []]; reflexivity. Qed.

Lemma toLowerCase_idem s : Js.toLowerCase (Js.toLowerCase s) = Js.toLowerCase s.
Proof.
  induction s as [| c s IH]; cbn [Js.toLowerCase]; [done |].
  by rewrite lower_char_idem, IH.
Qed.

Lemma trimStart_lower s : Js.trimStart (Js.toLowerCase s) = Js.toLowerCase (Js.trimStart s).
Proof.
  induction s as [| c s IH]; cbn [Js.toLowerCase Js.trimStart]; [done |].
  rewrite lower_char_space. by destruct (Js.is_space c).
Qed.

Lemma trimEnd_lower s : Js.trimEnd (Js.toLowerCase s) = Js.toLowerCase (Js.trimEnd s).
Proof.
  induction s as [| c s IH]; cbn [Js.toLowerCase Js.trimEnd]; [done |].
  rewrite IH, lower_char_space.
  destruct (Js.trimEnd s); cbn [Js.toLowerCase]; [by destruct (Js.is_space c) | done].
Qed.

Lemma trimEnd_idem s : Js.trimEnd (Js.trimEnd s) = Js.trimEnd s.
Proof.
  induction s as [| c s IH]; cbn [Js.trimEnd]; [done |].
  destruct (Js.trimEnd s) as [| d u] eqn:Hu.
  - destruct (Js.is_space c) eqn:Hc; cbn [Js.trimEnd]; [done | by rewrite Hc].
  - cbn [Js.trimEnd]. cbn [Js.trimEnd] in IH. by rewrite IH.
Qed.

Lemma trimEnd_head c t :
  Js.is_space c = false -> exists u, Js.trimEnd (String c t) = String c u.
Proof.
  intros Hc. cbn [Js.trimEnd]. destruct (Js.trimEnd t); rewrite ?Hc; eauto.
Qed.

Lemma trimStart_head s :
  Js.trimStart s = EmptyString \/
  exists c t, Js.trimStart s = String c t /\ Js.is_space c = false.
Proof.
  induction s as [| c s IH]; cbn [Js.trimStart]; [by left |].
  destruct (Js.is_space c) eqn:Hc; [exact IH | right; eauto].
Qed.

Lemma trim_idem s : Js.trim (Js.trim s) = Js.trim s.
Proof.
  unfold Js.trim.
  destruct (trimStart_head s) as [-> | (c & t & -> & Hc)]; [done |].
  destruct (trimEnd_head c t Hc) as [u Hu]. rewrite Hu.
  cbn [Js.trimStart]. rewrite Hc, <- Hu. apply trimEnd_idem.
Qed.

Lemma trim_lower s : Js.trim (Js.toLowerCase s) = Js.toLowerCase (Js.trim s).
Proof. unfold Js.trim. by rewrite trimStart_lower, trimEnd_lower. Qed.

Lemma or_default_empty (x : string) : Js.or_default (Some x) "" = x.
Proof.
  unfold Js.or_default. destruct (String.eqb_spec x ""); congruence.
Qed.

(** X4. The normal form of an identifier (trimmed, lower case) is its own
    normal form: an identifier as the handlers store it and send it back,
    [email] of verify-code, is read again as the same key. *)
Theorem normalize_idempotent (field : option string) (default : string) :
  normalize (Some (normalize field default)) "" = normalize field default.
Proof.
  unfold normalize at 1. rewrite or_default_empty. unfold normalize.
  by rewrite trim_lower, toLowerCase_idem, trim_idem.
Qed.

(* ===================================================================== *)
(** ** What the handlers do to the store *)
(* ===================================================================== *)

Lemma verify_code_store_cases cfg (s : store) req now now_iat :
  (verify_code cfg s req now now_iat).1 = s /\ s !! identifier_of req = None \/
  (verify_code cfg s req now now_iat).1 = delete (identifier_of req) s \/
  exists e,
    s !! identifier_of req = Some e /\ attempts e + 1 <= 6 /\
    (verify_code cfg s req now now_iat).1
      = <[identifier_of req := set_attempts e (attempts e + 1)]> s.
Proof.
  unfold verify_code. fold (identifier_of req).
  destruct (s !! identifier_of req) as [e|] eqn:He; [| by left].
  right. destruct (now >? expiresAt e); [by left |].
  rewrite num_or_zero_id. cbn [attempts set_attempts code].
  destruct (Z.gtb_spec (attempts e + 1) 6) as [Hgt | Hle].
  - left. cbn [fst]. by rewrite delete_insert_eq.
  - destruct (negb _); cbn [fst].
    + right. by exists e.
    + left. by rewrite delete_insert_eq.
Qed.

(** X5. verify-code never creates an entry and never touches the entry of
    another identifier. When the entry of its identifier is still there
    afterwards, it is the former entry with the same code, role, expiry
    and issuance, and with [attempts] raised by exactly one. *)
Theorem verify_code_footprint cfg (s : store) req now now_iat :
  (forall id, id <> identifier_of req ->
     (verify_code cfg s req now now_iat).1 !! id = s !! id) /\
  (forall e', (verify_code cfg s req now now_iat).1 !! identifier_of req = Some e' ->
     exists e, s !! identifier_of req = Some e /\
               e' = set_attempts e (attempts e + 1)).
Proof.
  destruct (verify_code_store_cases cfg s req now now_iat)
    as [[-> Hnone] | [-> | (e & He & _ & ->)]]; split.
  - done.
  - intros e'. by rewrite Hnone.
  - intros id Hother. by apply lookup_delete_ne.
  - intros e'. by rewrite lookup_delete_eq.
  - intros id Hother. by apply lookup_insert_ne.
  - intros e'. rewrite lookup_insert_eq. intros [= <-]. by exists e.
Qed.

Lemma verify_code_footprint_witness :
  (verify_code default_config (<["c@d.org" := alice_entry]> alice_store)
     (VerifyRequest (Some alice) (Some "1")) 5 5).1 !! "c@d.org" = Some alice_entry /\
  exists e, alice_store !! alice = Some e /\
            set_attempts alice_entry 1 = set_attempts e (attempts e + 1).
Proof.
  destruct (verify_code_footprint default_config alice_store
              (VerifyRequest (Some alice) (Some "1")) 5 5) as [_ Hsame].
  destruct (verify_code_footprint default_config (<["c@d.org" := alice_entry]> alice_store)
              (VerifyRequest (Some alice) (Some "1")) 5 5) as [Hother _].
  split.
  - rewrite (Hother "c@d.org"); [apply lookup_insert_eq | vm_compute; discriminate].
  - apply (Hsame (set_attempts alice_entry 1)). vm_compute. reflexivity.
Defined.

Lemma send_code_cases cfg (s : store) req now rnd delivered :
  send_code cfg s req now rnd delivered = Sent s email_required None \/
  (exists wait, send_code cfg s req now rnd delivered
                  = Sent s (Reply 429 (Error (wait_message wait))) None) \/
  valid_email (normalize (req_identifier req) "") = true /\
  exists r m,
    send_code cfg s req now rnd delivered =
      Sent (<[normalize (req_identifier req) "" :=
                new_entry cfg (genCode rnd) (normalize (req_role req) "user") now]> s)
        r (Some m) /\
    (r = Reply 200 CodeSent \/ r = failed_to_send) /\
    mail_to m = normalize (req_identifier req) "" /\
    text m = ("Your verification code is " ++ genCode rnd ++ "." ++ expiry_note cfg)%string.
Proof.
  unfold send_code.
  destruct (valid_email _) eqn:Hvalid; cbn [negb]; [| by left].
  right. destruct (cooldown_wait _ _ _) as [wait|]; [left; by exists wait |].
  right. split; [done |]. destruct delivered; eexists _, _; (split; [reflexivity |]); auto.
Qed.

(** X6. send-code changes the store exactly when it hands a message to
    the mailer. The message then goes to the identifier under which the
    challenge is stored and its text carries the stored code; the entries
    of all other identifiers are never touched. *)
Theorem send_code_footprint cfg (s : store) req now rnd delivered :
  (forall id, id <> normalize (req_identifier req) "" ->
     store_after (send_code cfg s req now rnd delivered) !! id = s !! id) /\
  (outbox (send_code cfg s req now rnd delivered) = None ->
     store_after (send_code cfg s req now rnd delivered) = s) /\
  (forall m, outbox (send_code cfg s req now rnd delivered) = Some m ->
     exists e,
       store_after (send_code cfg s req now rnd delivered) !! mail_to m = Some e /\
       attempts e = 0 /\
       text m = ("Your verification code is " ++ code e ++ "." ++ expiry_note cfg)%string).
Proof.
  destruct (send_code_cases cfg s req now rnd delivered)
    as [-> | [[wait ->] | (_ & r & m & -> & _ & Hto & Htext)]];
    cbn [store_after outbox]; (split; [| split]); try done.
  - intros id Hother. by apply lookup_insert_ne.
  - intros m' [= <-]. rewrite Hto, lookup_insert_eq. eauto.
Qed.

Lemma send_code_footprint_witness :
  store_after (send_code default_config alice_store (SendRequest (Some alice) None)
                 30000 0 true) = alice_store /\
  exists e,
    store_after (send_code default_config ∅ (SendRequest (Some alice) None) 0 (1 # 4) true)
      !! alice = Some e /\
    attempts e = 0 /\
    "Your verification code is 325000. It expires in 10 minutes."
      = ("Your verification code is " ++ code e ++ "." ++ expiry_note default_config)%string.
Proof.
  destruct (send_code_footprint default_config alice_store (SendRequest (Some alice) None)
              30000 0 true) as (_ & Hquiet & _).
  destruct (send_code_footprint default_config ∅ (SendRequest (Some alice) None)
              0 (1 # 4) true) as (_ & _ & Hmail).
  split.
  - apply Hquiet. vm_compute. reflexivity.
  - apply (Hmail (Mail "admin@teamplus.cloud" alice "Your Team Plus verification code"
                    "Your verification code is 325000. It expires in 10 minutes.")).
    vm_compute. reflexivity.
Defined.

(** X7. The reply of send-code does not depend on the code that was
    generated: two runs that differ only in the value of [Math.random()]
    are answered alike, so the reply tells nothing about the code. *)
Theorem send_code_reply_hides_code cfg (s : store) req now rnd rnd' delivered :
  replied (send_code cfg s req now rnd delivered)
    = replied (send_code cfg s req now rnd' delivered).
Proof.
  unfold send_code. destruct (valid_email _); cbn [negb]; [| done].
  destruct (cooldown_wait _ _ _); [done |]. by destruct delivered.
Qed.

Lemma new_entry_ok cfg id r now rnd :
  valid_email id = true -> normalize (Some id) "" = id ->
  F64.representable rnd -> (0 <= rnd)%Q -> (rnd < 1)%Q ->
  entry_ok cfg id (new_entry cfg (genCode rnd) r now).
Proof.
  intros Hvalid Hnorm Hrep Hlo Hhi. unfold entry_ok, new_entry.
  cbn [attempts expiresAt lastSentAt code].
  repeat split; try done. by apply genCode_range.
Qed.

Lemma store_ok_insert cfg (s : store) id e :
  store_ok cfg s -> entry_ok cfg id e -> store_ok cfg (<[id := e]> s).
Proof.
  intros Hs He id' e'. destruct (decide (id = id')) as [<- | Hne].
  - rewrite lookup_insert_eq. by intros [= <-].
  - rewrite lookup_insert_ne by done. apply Hs.
Qed.

Lemma store_ok_delete cfg (s : store) id :
  store_ok cfg s -> store_ok cfg (delete id s).
Proof.
  intros Hs id' e'. destruct (decide (id = id')) as [<- | Hne].
  - by rewrite lookup_delete_eq.
  - rewrite lookup_delete_ne by done. apply Hs.
Qed.

Lemma send_code_keeps_ok cfg (s : store) req now rnd delivered :
  store_ok cfg s -> F64.representable rnd -> (0 <= rnd)%Q -> (rnd < 1)%Q ->
  store_ok cfg (store_after (send_code cfg s req now rnd delivered)).
Proof.
  intros Hs Hrep Hlo Hhi.
  destruct (send_code_cases cfg s req now rnd delivered)
    as [-> | [[wait ->] | (Hvalid & r & m & -> & _)]]; cbn [store_after]; try done.
  apply store_ok_insert; [done |].
  apply new_entry_ok; try done. apply normalize_idempotent.
Qed.

Lemma admin_send_code_keeps_ok cfg (s : store) req now rnd delivered :
  store_ok cfg s -> F64.representable rnd -> (0 <= rnd)%Q -> (rnd < 1)%Q ->
  store_ok cfg (store_after (admin_send_code cfg s req now rnd delivered)).
Proof.
  intros Hs Hrep Hlo Hhi. unfold admin_send_code.
  destruct (valid_email _) eqn:Hvalid; cbn [negb]; [| done].
  destruct (denied _ _); [done |].
  destruct (cooldown_wait _ _ _); [done |].
  assert (Hok : store_ok cfg
            (<[normalize (req_identifier req) "" :=
                 new_entry cfg (genCode rnd) (normalize (req_role req) "admin") now]> s)).
  { apply store_ok_insert; [done |].
    apply new_entry_ok; try done. apply normalize_idempotent. }
  by destruct delivered.
Qed.

Lemma verify_code_keeps_ok cfg (s : store) req now now_iat :
  store_ok cfg s -> store_ok cfg (verify_code cfg s req now now_iat).1.
Proof.
  intros Hs.
  destruct (verify_code_store_cases cfg s req now now_iat)
    as [[-> _] | [-> | (e & He & Hle & ->)]]; [done | by apply store_ok_delete |].
  apply store_ok_insert; [done |].
  destruct (Hs _ _ He) as (Hvalid & Hnorm & Hatt & Hexp & Hcode).
  unfold entry_ok. cbn [attempts expiresAt lastSentAt code set_attempts].
  repeat split; try done; lia.
Qed.

(** X8. In every store the handlers can build from the empty one, with
    [Math.random()] a double of [0, 1) and the arithmetic of [genCode]
    rounded to binary64, each key is an identifier the send handlers
    accept, in normal form, and each entry has between 0 and 6 attempts,
    an expiry equal to its issuance plus the time to live, and for code
    the decimal writing of an integer from 100000 to 999999. *)
Theorem reachable_store_ok cfg (s : store) :
  reachable cfg s -> store_ok cfg s.
Proof.
  induction 1 as [ | s req now rnd delivered _ IH Hrep Hlo Hhi
                   | s req now rnd delivered _ IH Hrep Hlo Hhi
                   | s req now now_iat _ IH ].
  - intros id e. by rewrite lookup_empty.
  - by apply send_code_keeps_ok.
  - by apply admin_send_code_keeps_ok.
  - by apply verify_code_keeps_ok.
Qed.

Lemma reachable_store_ok_witness :
  entry_ok default_config alice (set_attempts alice_entry 1).
Proof.
  apply (reachable_store_ok default_config
           (verify_code default_config
              (store_after (send_code default_config ∅ (SendRequest (Some alice) None)
                              0 (1 # 4) false))
              (VerifyRequest (Some alice) (Some "1")) 5 5).1).
  - apply reach_verify_code. apply reach_send_code; [apply reach_start | | done | done].
    exists 1, (-2). split; [reflexivity | split; [reflexivity | discriminate]].
  - vm_compute. reflexivity.
Defined.

(* ===================================================================== *)
(** ** Guessing, and the whole round from request to token *)
(* ===================================================================== *)

Lemma submit_all_absent cfg subs :
  forall (s : store) id,
    s !! id = None ->
    Forall (fun x => identifier_of (sub_request x) = id) subs ->
    submit_all cfg s subs = (s, replicate (length subs) no_code_requested).
Proof.
  induction subs as [| x rest IH]; intros s id Hnone Hfor; [done |].
  apply Forall_cons in Hfor as [Hid Hrest]. cbn [submit_all length replicate].
  rewrite verify_code_absent by (by rewrite Hid).
  by rewrite (IH s id Hnone Hrest).
Qed.

Lemma compared_replicate_none n :
  List.filter compared (replicate n no_code_requested) = [].
Proof.
  induction n as [| n IH]; [done |].
  cbn [replicate List.filter]. by change (compared no_code_requested) with false.
Qed.

Lemma submit_all_cons cfg (s : store) x rest :
  submit_all cfg s (x :: rest) =
    ((submit_all cfg (verify_code cfg s (sub_request x) (sub_now x) (sub_now_iat x)).1 rest).1,
     (verify_code cfg s (sub_request x) (sub_now x) (sub_now_iat x)).2
       :: (submit_all cfg (verify_code cfg s (sub_request x) (sub_now x) (sub_now_iat x)).1
             rest).2).
Proof.
  cbn [submit_all]. destruct (verify_code _ _ _ _ _) as [s1 r]. cbn [fst snd].
  by destruct (submit_all cfg s1 rest).
Qed.

Lemma compared_after_delete cfg (s : store) id rest r :
  Forall (fun x => identifier_of (sub_request x) = id) rest ->
  Z.of_nat (length (List.filter compared (r :: (submit_all cfg (delete id s) rest).2)))
    = if compared r then 1 else 0.
Proof.
  intros Hrest.
  rewrite (submit_all_absent cfg rest (delete id s) id); [| apply lookup_delete_eq | done].
  cbn [snd List.filter]. rewrite compared_replicate_none. by destruct (compared r).
Qed.

(** X9. Against one challenge, no more than [6 - attempts] submissions
    are ever compared with the code: in any run of submissions for the
    identifier, at whatever instants and with whatever codes, the replies
    that tell whether a code was right ("Invalid code" or the success)
    number at most [6 - attempts], six for a challenge just issued. *)
Theorem guesses_bounded cfg subs :
  forall (s : store) id e,
    s !! id = Some e ->
    0 <= attempts e <= 6 ->
    Forall (fun x => identifier_of (sub_request x) = id) subs ->
    Z.of_nat (length (List.filter compared (submit_all cfg s subs).2)) <= 6 - attempts e.
Proof.
  induction subs as [| x rest IH]; intros s id e He Hatt Hfor.
  - cbn. lia.
  - apply Forall_cons in Hfor as [Hid Hrest]. rewrite submit_all_cons. cbn [snd].
    rewrite <- Hid in He.
    destruct (Z.gtb_spec (sub_now x) (expiresAt e)) as [Hlate | Hfresh].
    { rewrite (verify_code_expired cfg s (sub_request x) (sub_now x) (sub_now_iat x) e)
        by (done || lia).
      rewrite Hid. cbn [fst snd]. rewrite compared_after_delete by done.
      change (compared code_expired) with false. cbv iota. lia. }
    destruct (Z.lt_ge_cases (attempts e) 6) as [Hfew | Hmany].
    2: { rewrite (verify_code_locked cfg s (sub_request x) (sub_now x) (sub_now_iat x) e)
           by (done || lia).
         rewrite Hid. cbn [fst snd]. rewrite compared_after_delete by done.
         change (compared too_many_attempts) with false. cbv iota. lia. }
    destruct (String.eqb_spec (code_of (sub_request x)) (code e)) as [Hright | Hwrong].
    + rewrite (verify_code_match cfg s (sub_request x) (sub_now x) (sub_now_iat x) e)
        by done.
      rewrite Hid. cbn [fst snd]. rewrite compared_after_delete by done.
      cbn [compared json]. cbv iota. lia.
    + rewrite (verify_code_wrong cfg s (sub_request x) (sub_now x) (sub_now_iat x) e)
        by done.
      rewrite Hid. cbn [fst snd].
      specialize (IH (<[id := set_attempts e (attempts e + 1)]> s) id
                     (set_attempts e (attempts e + 1))).
      cbn [attempts set_attempts] in IH.
      specialize (IH ltac:(apply lookup_insert_eq) ltac:(lia) Hrest).
      cbn [List.filter]. change (compared invalid_code) with true.
      cbn [length]. lia.
Qed.

Lemma guesses_bounded_witness :
  Z.of_nat (length (List.filter compared
    (submit_all default_config alice_store
       [alice_submits "1" 1; alice_submits "2" 2; alice_submits "3" 3; alice_submits "4" 4;
        alice_submits "5" 5; alice_submits "6" 6; alice_submits "325000" 7;
        alice_submits "325000" 8]).2)) <= 6 - 0.
Proof.
  apply (guesses_bounded default_config
           [alice_submits "1" 1; alice_submits "2" 2; alice_submits "3" 3; alice_submits "4" 4;
            alice_submits "5" 5; alice_submits "6" 6; alice_submits "325000" 7;
            alice_submits "325000" 8]
           alice_store alice alice_entry).
  - vm_compute. reflexivity.
  - vm_compute. split; discriminate.
  - repeat constructor.
Defined.

Lemma all_from_spec p count : forall n k,
  all_from p n count = true -> n <= k < n + Z.of_nat count -> p k = true.
Proof.
  induction count as [| count IH]; intros n k Hall Hk; [lia |].
  cbn [all_from] in Hall. apply andb_prop in Hall as [Hn Hrest].
  destruct (Z.eq_dec k n) as [-> | Hne]; [done |].
  apply (IH (n + 1)); [done | lia].
Qed.

Lemma codes_checked : all_from (fun n => six_digits (Js.of_int n)) 100000 (Z.to_nat 900000) = true.
Proof. vm_compute. reflexivity. Qed.

(** X10. For [Math.random()] a double of [0, 1), with the product and
    the sum rounded to binary64 as the language computes them, [genCode]
    returns a string of exactly six characters, all of them decimal
    digits. *)
Theorem genCode_six_digits (r : Q) :
  F64.representable r -> (0 <= r)%Q -> (r < 1)%Q ->
  String.length (genCode r) = 6%nat /\ all_chars is_digit (genCode r) = true.
Proof.
  intros Hrep Hlo Hhi. destruct (genCode_range r Hrep Hlo Hhi) as (n & Hn & ->).
  pose proof (all_from_spec _ _ 100000 n codes_checked) as Hsix.
  cbv beta in Hsix. unfold six_digits in Hsix.
  apply andb_prop in Hsix as [Hlen Hdig]; [| lia].
  split; [by apply Nat.eqb_eq | done].
Qed.

Lemma genCode_six_digits_witness :
  String.length (genCode (9007199254740991 # 9007199254740992)) = 6%nat /\
  all_chars is_digit (genCode (9007199254740991 # 9007199254740992)) = true.
Proof.
  apply (genCode_six_digits (9007199254740991 # 9007199254740992)); [| done | done].
  exists 9007199254740991, (-53). split; [reflexivity | split; [reflexivity | discriminate]].
Defined.

Lemma uint_no_space d :
  all_chars (fun c => negb (Js.is_space c)) (NilEmpty.string_of_uint d) = true.
Proof. induction d; cbn [NilEmpty.string_of_uint all_chars]; [done | by rewrite IHd ..]. Qed.

Lemma of_int_no_space n : all_chars (fun c => negb (Js.is_space c)) (Js.of_int n) = true.
Proof.
  unfold Js.of_int, NilZero.string_of_int, NilZero.string_of_uint.
  destruct (Z.to_int n) as [d | d]; destruct d; cbn [all_chars];
    rewrite ?uint_no_space; try reflexivity;
    match goal with |- context [NilEmpty.string_of_uint ?u] =>
      pose proof (uint_no_space u) as H; cbn [NilEmpty.string_of_uint all_chars] in H;
      by rewrite ?H
    end.
Qed.

Lemma trimEnd_no_space s :
  all_chars (fun c => negb (Js.is_space c)) s = true -> Js.trimEnd s = s.
Proof.
  induction s as [| c s IH]; cbn [all_chars Js.trimEnd]; [done |].
  intros [Hc Hs]%andb_prop. rewrite (IH Hs).
  apply negb_true_iff in Hc. rewrite Hc. by destruct s.
Qed.

Lemma trim_no_space s :
  all_chars (fun c => negb (Js.is_space c)) s = true -> Js.trim s = s.
Proof.
  intros Hs. unfold Js.trim.
  replace (Js.trimStart s) with s; [by apply trimEnd_no_space |].
  destruct s as [| c s]; [done |]. cbn [all_chars] in Hs.
  apply andb_prop in Hs as [Hc _]. apply negb_true_iff in Hc.
  cbn [Js.trimStart]. by rewrite Hc.
Qed.

Lemma code_of_generated req rnd : code_of (submit_generated req rnd) = genCode rnd.
Proof.
  unfold code_of, submit_generated. cbn [vreq_code].
  rewrite or_default_empty. apply trim_no_space, of_int_no_space.
Qed.

(** X11. From request to token. When send-code answers "Code sent",
    submitting the generated code for the same identifier no later than
    [now + ttl] succeeds, whatever was stored before and however many
    other identifiers are pending: it removes the challenge and returns a
    token, the normal form of the identifier and the requested role
    (trimmed, lower case, "user" when empty); and verify-token, asked
    within the validity of the token, answers with that identifier and
    that role. *)
Theorem request_submit_validate cfg (s : store) req now rnd t t_iat t1 :
  replied (send_code cfg s req now rnd true) = Reply 200 CodeSent ->
  t <= now + CODE_TTL cfg * 1000 ->
  t1 / 1000 < t_iat / 1000 + 86400 ->
  exists token granted,
    granted = Js.or_default (Some (normalize (req_role req) "user")) "user" /\
    verify_code cfg (store_after (send_code cfg s req now rnd true))
        (submit_generated req rnd) t t_iat
      = (delete (normalize (req_identifier req) "") s,
         Reply 200 (EmailVerified token granted (normalize (req_identifier req) ""))) /\
    verify_token cfg (Some token) t1
      = Reply 200 (TokenValid (normalize (req_identifier req) "") granted).
Proof.
  intros Hreply Hintime Hwindow.
  destruct (send_code_reached_delivery cfg s req now rnd true) as [Hvalid Hwait];
    [by rewrite Hreply | by rewrite Hreply |].
  destruct (send_code_issued cfg s req now rnd true Hvalid Hwait) as [-> _].
  eexists _, _. split; [reflexivity |].
  rewrite (verify_code_match cfg _ (submit_generated req rnd) t t_iat
             (new_entry cfg (genCode rnd) (normalize (req_role req) "user") now));
    [| apply lookup_insert_eq | done | done | apply code_of_generated].
  unfold identifier_of, submit_generated, reported_role.
  cbn [vreq_identifier role new_entry]. rewrite delete_insert_eq.
  split; [reflexivity |].
  rewrite mint_claims. unfold verify_token, Jwt.verify.
  cbn [Jwt.falsy Jwt.exp Jwt.email Jwt.role]. rewrite String.eqb_refl. cbn [negb].
  destruct (Z.geb_spec (t1 / 1000) (t_iat / 1000 + 86400)); [lia | reflexivity].
Qed.

Lemma request_submit_validate_witness :
  exists token,
    verify_code default_config
        (store_after (send_code default_config ∅ (SendRequest (Some " A@B.com") (Some "Tester"))
                        0 (1 # 4) true))
        (VerifyRequest (Some " A@B.com") (Some "325000")) 600000 600000
      = (∅, Reply 200 (EmailVerified token "tester" alice)) /\
    verify_token default_config (Some token) 86999999 = Reply 200 (TokenValid alice "tester").
Proof.
  destruct (request_submit_validate default_config ∅ (SendRequest (Some " A@B.com") (Some "Tester"))
              0 (1 # 4) 600000 600000 86999999) as (token & granted & -> & Hcode & Htoken).
  - vm_compute. reflexivity.
  - vm_compute. discriminate.
  - vm_compute. reflexivity.
  - exists token. split; [| exact Htoken].
    rewrite delete_empty in Hcode. exact Hcode.
Defined.

(** X12. The allow-list guards admin-send-code only. For an identifier
    that admin-send-code refuses with the forbidden error, send-code with
    the role "admin" issues a challenge all the same, and submitting its
    code yields a token that verify-token reports with the role "admin". *)
Theorem allow_list_not_enforced_by_send_code cfg (s : store) req now rnd t t_iat t1 :
  valid_email (normalize (req_identifier req) "") = true ->
  denied cfg (normalize (req_identifier req) "") = true ->
  normalize (req_role req) "user" = "admin" ->
  s !! normalize (req_identifier req) "" = None ->
  t <= now + CODE_TTL cfg * 1000 ->
  t1 / 1000 < t_iat / 1000 + 86400 ->
  admin_send_code cfg s req now rnd true = Sent s access_denied None /\
  replied (send_code cfg s req now rnd true) = Reply 200 CodeSent /\
  exists token,
    (verify_code cfg (store_after (send_code cfg s req now rnd true))
       (submit_generated req rnd) t t_iat).2
      = Reply 200 (EmailVerified token "admin" (normalize (req_identifier req) "")) /\
    verify_token cfg (Some token) t1
      = Reply 200 (TokenValid (normalize (req_identifier req) "") "admin").
Proof.
  intros Hvalid Hdenied Hrole Hnone Hintime Hwindow.
  split; [| split].
  - unfold admin_send_code. by rewrite Hvalid, Hdenied.
  - unfold send_code. by rewrite Hvalid, Hnone.
  - unfold send_code. rewrite Hvalid, Hnone. cbn [negb cooldown_wait store_after].
    rewrite (verify_code_match cfg _ (submit_generated req rnd) t t_iat
               (new_entry cfg (genCode rnd) (normalize (req_role req) "user") now));
      [| apply lookup_insert_eq | done | done | apply code_of_generated].
    unfold identifier_of, submit_generated, reported_role.
    cbn [vreq_identifier role new_entry snd]. rewrite Hrole.
    eexists. split; [reflexivity |].
    rewrite mint_claims. unfold verify_token, Jwt.verify.
    cbn [Jwt.falsy Jwt.exp Jwt.email Jwt.role]. rewrite String.eqb_refl. cbn [negb].
    destruct (Z.geb_spec (t1 / 1000) (t_iat / 1000 + 86400)); [lia | reflexivity].
Qed.

Lemma allow_list_not_enforced_by_send_code_witness :
  admin_send_code (Config "k" 600 60 None (Some "x@y.com")) ∅
      (SendRequest (Some "z@y.com") (Some "admin")) 0 0 true
    = Sent ∅ access_denied None /\
  replied (send_code (Config "k" 600 60 None (Some "x@y.com")) ∅
             (SendRequest (Some "z@y.com") (Some "admin")) 0 0 true)
    = Reply 200 CodeSent.
Proof.
  destruct (allow_list_not_enforced_by_send_code (Config "k" 600 60 None (Some "x@y.com")) ∅
              (SendRequest (Some "z@y.com") (Some "admin")) 0 0 1 1 1)
    as (Hadmin & Hsend & _).
  - vm_compute. reflexivity.
  - vm_compute. reflexivity.
  - vm_compute. reflexivity.
  - apply lookup_empty.
  - vm_compute. discriminate.
  - vm_compute. reflexivity.
  - split; [exact Hadmin | exact Hsend].
Defined.

(** X14. For a valid identifier with a stored challenge, send-code
    throttles exactly while less than the cooldown has passed since
    [lastSentAt]: at [lastSentAt + cooldown] to the millisecond and from
    then on the request is served and overwrites the challenge. Without a
    stored challenge it never throttles. *)
Theorem throttled_iff_within_cooldown cfg (s : store) req now rnd delivered :
  valid_email (normalize (req_identifier req) "") = true ->
  (forall prev, s !! normalize (req_identifier req) "" = Some prev ->
     (status (replied (send_code cfg s req now rnd delivered)) = 429 <->
      now - lastSentAt prev < RESEND_COOLDOWN cfg * 1000) /\
     (RESEND_COOLDOWN cfg * 1000 <= now - lastSentAt prev ->
      store_after (send_code cfg s req now rnd delivered) !! normalize (req_identifier req) ""
        = Some (new_entry cfg (genCode rnd) (normalize (req_role req) "user") now))) /\
  (s !! normalize (req_identifier req) "" = None ->
     status (replied (send_code cfg s req now rnd delivered)) <> 429).
Proof.
  intros Hvalid. unfold send_code. rewrite Hvalid. cbn [negb]. split.
  - intros prev ->. unfold cooldown_wait.
    destruct (Z.ltb_spec (now - lastSentAt prev) (RESEND_COOLDOWN cfg * 1000)) as [Hlt | Hge].
    + cbn [replied status store_after]. split; [done | lia].
    + split.
      * destruct delivered; cbn [replied status]; split; (discriminate || lia).
      * intros _. destruct delivered; cbn [store_after]; apply lookup_insert_eq.
  - intros ->. cbn [cooldown_wait]. by destruct delivered.
Qed.

Lemma throttled_iff_within_cooldown_witness :
  status (replied (send_code default_config alice_store (SendRequest (Some alice) None)
                     59999 0 true)) = 429 /\
  store_after (send_code default_config alice_store (SendRequest (Some alice) None)
                 60000 0 true) !! alice
    = Some (new_entry default_config "100000" "user" 60000).
Proof.
  destruct (throttled_iff_within_cooldown default_config alice_store
              (SendRequest (Some alice) None) 59999 0 true) as [Hprev _];
    [vm_compute; reflexivity |].
  destruct (throttled_iff_within_cooldown default_config alice_store
              (SendRequest (Some alice) None) 60000 0 true) as [Hprev' _];
    [vm_compute; reflexivity |].
  split.
  - apply (Hprev alice_entry); vm_compute; reflexivity.
  - apply (Hprev' alice_entry); [vm_compute; reflexivity | vm_compute; discriminate].
Defined.

(* ===================================================================== *)
(** ** The allow-list as it is read from the environment *)
(* ===================================================================== *)

Lemma trimStart_blank s : all_chars Js.is_space s = true -> Js.trimStart s = EmptyString.
Proof.
  induction s as [| c s IH]; cbn [all_chars Js.trimStart]; [done |].
  intros [Hc Hs]%andb_prop. rewrite Hc. auto.
Qed.

Lemma split_blank s :
  all_chars blank_or_comma s = true ->
  Forall (fun piece => all_chars Js.is_space piece = true) (Js.split "," s).
Proof.
  induction s as [| c s IH]; cbn [all_chars Js.split].
  - intros _. by repeat constructor.
  - intros [Hc Hs]%andb_prop. specialize (IH Hs).
    destruct (Ascii.eqb c ",") eqn:Hcomma; [by constructor |].
    unfold blank_or_comma in Hc. rewrite Hcomma, orb_false_r in Hc.
    destruct (Js.split "," s) as [| piece pieces].
    { constructor; [| done]. cbn [all_chars]. by rewrite Hc. }
    apply Forall_cons in IH as [Hpiece Hpieces].
    constructor; [| done]. cbn [all_chars]. by rewrite Hc.
Qed.

Lemma allow_list_of_blanks (pieces : list string) :
  Forall (fun piece => all_chars Js.is_space piece = true) pieces ->
  List.filter (fun e => negb (Js.falsy e))
    (List.map (fun e => Js.toLowerCase (Js.trim e)) pieces) = [].
Proof.
  induction 1 as [| piece pieces Hpiece _ IH]; [done |].
  cbn [List.map List.filter]. unfold Js.trim at 1.
  by rewrite (trimStart_blank _ Hpiece).
Qed.

Lemma admin_reply_not_denied cfg (s : store) req now rnd delivered :
  denied cfg (normalize (req_identifier req) "") = false ->
  replied (admin_send_code cfg s req now rnd delivered) <> access_denied.
Proof.
  intros Hfree. unfold admin_send_code. rewrite Hfree.
  destruct (valid_email _); cbn [negb]; [| done].
  destruct (cooldown_wait _ _ _); [done |]. by destruct delivered.
Qed.

(** X15. The allow-list fails open: when [ADMIN_EMAILS] is unset, empty
    or made of commas and white space only, the list is empty and
    admin-send-code refuses no request with the forbidden error. *)
Theorem allow_list_fails_open cfg :
  all_chars blank_or_comma (Js.or_default (env_ADMIN_EMAILS cfg) "") = true ->
  ADMIN_EMAILS cfg = [] /\
  (forall (s : store) req now rnd delivered,
     replied (admin_send_code cfg s req now rnd delivered) <> access_denied).
Proof.
  intros Hblank.
  assert (Hnil : ADMIN_EMAILS cfg = [])
    by (unfold ADMIN_EMAILS; by apply allow_list_of_blanks, split_blank).
  split; [done |]. intros s req now rnd delivered.
  apply admin_reply_not_denied. unfold denied. by rewrite Hnil.
Qed.

Lemma allow_list_fails_open_witness :
  replied (admin_send_code (Config "k" 600 60 None (Some " , ,")) ∅
             (SendRequest (Some "z@y.com") None) 0 0 true) <> access_denied.
Proof.
  apply (allow_list_fails_open (Config "k" 600 60 None (Some " , ,"))).
  vm_compute. reflexivity.
Defined.

Lemma split_no_comma x :
  all_chars not_comma x = true -> Js.split "," x = [x].
Proof.
  induction x as [| c x IH]; cbn [all_chars Js.split]; [done |].
  intros [Hc Hx]%andb_prop. apply negb_true_iff in Hc. by rewrite Hc, (IH Hx).
Qed.

Lemma split_item_comma x rest :
  all_chars not_comma x = true ->
  Js.split "," (x ++ "," ++ rest)%string = x :: Js.split "," rest.
Proof.
  induction x as [| c x IH]; intros Hx.
  - reflexivity.
  - cbn [all_chars] in Hx. apply andb_prop in Hx as [Hc Hx].
    apply negb_true_iff in Hc.
    change (String c x ++ "," ++ rest)%string with (String c (x ++ "," ++ rest)%string).
    cbn [Js.split]. by rewrite Hc, (IH Hx).
Qed.

Lemma split_join (items : list string) :
  items <> [] ->
  Forall (fun item => all_chars not_comma item = true) items ->
  Js.split "," (Arr.join "," items) = items.
Proof.
  induction items as [| x items IH]; [done |]. intros _ Hitems.
  apply Forall_cons in Hitems as [Hx Hrest].
  destruct items as [| y items]; [by apply split_no_comma |].
  change (Arr.join "," (x :: y :: items))
    with (x ++ "," ++ Arr.join "," (y :: items))%string.
  rewrite split_item_comma by done. by rewrite IH.
Qed.

(** X16. When [ADMIN_EMAILS] holds items separated by commas, the
    allow-list is made of the items trimmed and put in lower case, the
    empty ones left out; so an identifier is admitted by admin-send-code
    whatever the case and the surrounding blanks of its item. *)
Theorem allow_list_of_items cfg (items : list string) :
  items <> [] ->
  Forall (fun item => all_chars not_comma item = true) items ->
  env_ADMIN_EMAILS cfg = Some (Arr.join "," items) ->
  ADMIN_EMAILS cfg =
    List.filter (fun e => negb (Js.falsy e))
      (List.map (fun e => Js.toLowerCase (Js.trim e)) items) /\
  (forall item, In item items -> Js.toLowerCase (Js.trim item) <> EmptyString ->
     denied cfg (Js.toLowerCase (Js.trim item)) = false).
Proof.
  intros Hne Hitems Henv.
  assert (Hlist : ADMIN_EMAILS cfg =
    List.filter (fun e => negb (Js.falsy e))
      (List.map (fun e => Js.toLowerCase (Js.trim e)) items)).
  { unfold ADMIN_EMAILS. rewrite Henv, or_default_empty. by rewrite split_join. }
  split; [done |]. intros item Hin Hfull.
  apply denied_false. right. rewrite Hlist.
  apply filter_In. split.
  - apply in_map_iff. by exists item.
  - apply negb_true_iff. unfold Js.falsy. by apply String.eqb_neq.
Qed.

Lemma allow_list_of_items_witness :
  ADMIN_EMAILS (Config "k" 600 60 None (Some " X@Y.com ,, Ops@Y.com")) = ["x@y.com"; "ops@y.com"] /\
  denied (Config "k" 600 60 None (Some " X@Y.com ,, Ops@Y.com")) "ops@y.com" = false.
Proof.
  destruct (allow_list_of_items (Config "k" 600 60 None (Some " X@Y.com ,, Ops@Y.com"))
              [" X@Y.com "; ""; " Ops@Y.com"]) as [Hlist Hadmit].
  - discriminate.
  - repeat constructor.
  - reflexivity.
  - split; [exact Hlist |].
    apply (Hadmit " Ops@Y.com"); [cbn; tauto | vm_compute; discriminate].
Defined.

(* ===================================================================== *)
(** ** Sorting *)
(* ===================================================================== *)

Section Sorting.
Context {A : Type} (before : A -> A -> bool).

Lemma insert_perm x l : Permutation (Arr.insert before x l) (x :: l).
Proof.
  induction l as [| y l IH]; cbn [Arr.insert]; [done |].
  destruct (before x y); [done |].
  rewrite IH. apply perm_swap.
Qed.

Lemma sort_perm l : Permutation (Arr.sort before l) l.
Proof.
  induction l as [| x l IH]; cbn [Arr.sort]; [done |].
  rewrite insert_perm. by constructor.
Qed.

Hypothesis before_total : forall a b, before a b = false -> before b a = true.

Lemma insert_sorted x l :
  Sorted (fun a b => before a b = true) l ->
  Sorted (fun a b => before a b = true) (Arr.insert before x l).
Proof.
  induction l as [| y l IH]; cbn [Arr.insert]; intros Hl.
  - by repeat constructor.
  - destruct (before x y) eqn:Hxy.
    + constructor; [done | by constructor].
    + apply Sorted_inv in Hl as [Hl Hhd]. constructor; [by apply IH |].
      destruct l as [| z l]; cbn [Arr.insert].
      * constructor. by apply before_total.
      * destruct (before x z); constructor; [by apply before_total |].
        by apply HdRel_inv in Hhd.
Qed.

Lemma sort_sorted l : Sorted (fun a b => before a b = true) (Arr.sort before l).
Proof.
  induction l as [| x l IH]; cbn [Arr.sort]; [constructor | by apply insert_sorted].
Qed.

(** Elements that [x] may not precede are the only ones it passes. *)
Lemma insert_filter (keep : A -> bool) x l :
  (forall y, keep x = true -> keep y = true -> before x y = true) ->
  List.filter keep (Arr.insert before x l) = List.filter keep (x :: l).
Proof.
  intros Hkeep. induction l as [| y l IH]; cbn [Arr.insert]; [done |].
  destruct (before x y) eqn:Hxy; [done |].
  cbn [List.filter] in *. rewrite IH. pose proof (Hkeep y) as Hpass.
  destruct (keep x), (keep y); try done.
  specialize (Hpass eq_refl eq_refl). congruence.
Qed.
End Sorting.

(* ===================================================================== *)
(** ** The firmware API *)
(* ===================================================================== *)

Lemma Sorted_weaken {A : Type} (R R' : A -> A -> Prop) l :
  (forall a b, R a b -> R' a b) -> Sorted R l -> Sorted R' l.
Proof.
  intros Himpl. induction 1 as [| x l _ IH Hhd]; constructor; [done |].
  destruct Hhd; constructor; auto.
Qed.

Lemma newest_first_total a b : newest_first a b = false -> newest_first b a = true.
Proof.
  unfold newest_first. intros Hab%Z.leb_gt. apply Z.leb_le. lia.
Qed.

(** X17. When the firmware directory can be read, GET /api/directories
    answers 200 with the names of exactly the entries that are
    directories, each as often as it is listed, in ascending order of code
    units; when it cannot be read the answer is 500. *)
Theorem list_directories_sorted env :
  (forall entries, readdir env (FIRMWARE_DIR env) = Some entries ->
     exists names,
       list_directories env = ApiReply 200 (Directories names) /\
       Permutation names (List.map d_name (List.filter is_directory entries)) /\
       Sorted (fun a b => String.leb a b = true) names) /\
  (readdir env (FIRMWARE_DIR env) = None ->
     list_directories env = ApiReply 500 (Failure "Failed to read directories")).
Proof.
  unfold list_directories. split.
  - intros entries ->. eexists. split; [reflexivity |]. split.
    + apply sort_perm.
    + apply sort_sorted. intros a b Hab.
      destruct (String.leb_total a b) as [H | H]; congruence.
  - by intros ->.
Qed.

Lemma list_directories_sorted_witness :
  exists names,
    list_directories example_node = ApiReply 200 (Directories names) /\
    Permutation names ["zeta"; "esp32"; "Alpha"] /\
    Sorted (fun a b => String.leb a b = true) names.
Proof.
  destruct (list_directories_sorted example_node) as [Hread _].
  exact (Hread [Dirent "zeta" IsDirectory; Dirent "readme.txt" IsFile;
                Dirent "esp32" IsDirectory; Dirent "Alpha" IsDirectory] eq_refl).
Defined.

Lemma describe_all_some env directory dirPath l :
  Forall (fun e => is_Some (stat env (path_join env [dirPath; d_name e]))) l ->
  exists files,
    describe_all env directory dirPath l = Some files /\
    List.map f_name files = List.map d_name l /\
    Forall (fun f =>
      f_url f = ("/firmware/" ++ directory ++ "/" ++ f_name f)%string /\
      stat env (path_join env [dirPath; f_name f]) = Some (Stats (f_size f) (f_modified f)))
      files.
Proof.
  induction 1 as [| e l [st Hst] _ (files & Hall & Hnames & Hfiles)].
  - exists []. by repeat split.
  - cbn [describe_all]. unfold describe_file. rewrite Hst, Hall.
    eexists. split; [reflexivity |]. cbn [List.map f_name]. split; [by rewrite Hnames |].
    constructor; [| done]. cbn [f_url f_name f_size f_modified]. split; [done |].
    by destruct st.
Qed.

(** X18. GET /api/files for a directory that exists and can be read,
    all of whose files can be examined, answers 200 with one object per
    entry that is a file: its name, its size and date as [stat] gives
    them, and the address [/firmware/directory/name]. The objects are in
    order of date, most recent first, and files of equal date keep the
    order in which the directory lists them. For a directory that does not
    exist the answer is 200 as well, with no file. *)
Theorem list_files_newest_first env directory :
  directory <> EmptyString ->
  (existsSync env (path_join env [FIRMWARE_DIR env; directory]) = false ->
     list_files env (Some directory) = ApiReply 200 (Files [])) /\
  (forall entries,
     existsSync env (path_join env [FIRMWARE_DIR env; directory]) = true ->
     readdir env (path_join env [FIRMWARE_DIR env; directory]) = Some entries ->
     Forall (fun e => is_Some (stat env
               (path_join env [path_join env [FIRMWARE_DIR env; directory]; d_name e])))
       (List.filter is_file entries) ->
     exists listed files,
       list_files env (Some directory) = ApiReply 200 (Files files) /\
       Permutation files listed /\
       List.map f_name listed = List.map d_name (List.filter is_file entries) /\
       Forall (fun f =>
         f_url f = ("/firmware/" ++ directory ++ "/" ++ f_name f)%string /\
         stat env (path_join env [path_join env [FIRMWARE_DIR env; directory]; f_name f])
           = Some (Stats (f_size f) (f_modified f))) files /\
       Sorted not_newer files /\
       (forall k, List.filter (modified_at k) files = List.filter (modified_at k) listed)).
Proof.
  intros Hdir. unfold list_files.
  assert (Hfalsy : Js.falsy directory = false) by (by apply String.eqb_neq).
  rewrite Hfalsy. split.
  - by intros ->.
  - intros entries -> -> Hstat. cbn [negb].
    destruct (describe_all_some env directory _ _ Hstat) as (listed & -> & Hnames & Hlisted).
    exists listed. eexists. split; [reflexivity |].
    split; [apply sort_perm |]. split; [done |].
    split; [| split].
    + eapply Permutation_Forall; [symmetry; apply sort_perm | done].
    + apply (Sorted_weaken (fun a b => newest_first a b = true)).
      * intros a b Hab. apply Z.leb_le in Hab. unfold not_newer. lia.
      * apply sort_sorted. apply newest_first_total.
    + intros k. clear. induction listed as [| f l IH]; [done |].
      cbn [Arr.sort]. rewrite insert_filter.
      * cbn [List.filter]. by rewrite IH.
      * intros y Hf Hy. unfold modified_at in *. apply Z.eqb_eq in Hf, Hy.
        unfold newest_first. apply Z.leb_le. lia.
Qed.

Lemma list_files_newest_first_witness :
  exists files,
    list_files example_node (Some "esp32") = ApiReply 200 (Files files) /\
    Sorted not_newer files /\
    List.map f_url files = ["/firmware/esp32/new.bin"; "/firmware/esp32/old.bin"].
Proof.
  destruct (list_files_newest_first example_node "esp32") as [_ Hlist]; [discriminate |].
  destruct (Hlist [Dirent "old.bin" IsFile; Dirent "backup" IsDirectory; Dirent "new.bin" IsFile])
    as (listed & files & Hreply & _ & _ & _ & Hsorted & _).
  - reflexivity.
  - reflexivity.
  - repeat constructor; vm_compute; eauto.
  - exists files. split; [exact Hreply |]. split; [exact Hsorted |].
    vm_compute in Hreply. by injection Hreply as <-.
Defined.

Lemma endsWith_suffix s suffix :
  Str.endsWith s suffix = true <-> exists stem, s = (stem ++ suffix)%string.
Proof.
  split.
  - induction s as [| c s IH]; cbn [Str.endsWith].
    + destruct (String.eqb_spec "" suffix) as [<- | _]; [| discriminate].
      intros _. by exists EmptyString.
    + destruct (String.eqb_spec (String c s) suffix) as [<- | _].
      * intros _. by exists EmptyString.
      * intros [stem ->]%IH. by exists (String c stem).
  - intros [stem ->]. induction stem as [| c stem IH].
    + change (EmptyString ++ suffix)%string with suffix.
      destruct suffix; cbn [Str.endsWith]; by rewrite String.eqb_refl.
    + change (String c stem ++ suffix)%string with (String c (stem ++ suffix)%string).
      cbn [Str.endsWith]. rewrite IH. by destruct (String.eqb _ suffix).
Qed.

(** X19. The upload filter lets a file through exactly when its name is
    some stem, possibly empty, followed by [.bin] in lower case. *)
Theorem fileFilter_bin (name : string) :
  fileFilter name = true <-> exists stem, name = (stem ++ ".bin")%string.
Proof. apply endsWith_suffix. Qed.





(** X22. POST /api/upload checks no directory name. With a file and any
    non-empty directory field, when no call throws, it writes the buffer
    to [directory/originalname] under the firmware directory, replacing
    what may be there, after creating the directory when it does not
    exist, and answers 200 with the name and the size. This holds for the
    names POST /api/directories refuses with 400 as well: what the one
    handler will not create, the other creates. *)
Theorem upload_checks_no_name env file directory :
  directory <> EmptyString ->
  (forall call, throws env call = None) ->
  upload env (Some file) (Some directory) =
    ApiResult (ApiReply 200 (Uploaded (originalname file) (file_size file)))
      ((if existsSync env (path_join env [FIRMWARE_DIR env; directory]) then []
        else [Mkdir (path_join env [FIRMWARE_DIR env; directory])])
       ++ [WriteFile (path_join env [path_join env [FIRMWARE_DIR env; directory];
                                     originalname file])
             (buffer file)]) /\
  (Re.test CREATE_NAME_RE directory = false ->
   create_directory env (Some directory) =
     ApiResult (ApiReply 400 (Failure
       "Invalid directory name. Use only letters, numbers, spaces, hyphens, and underscores."))
       []).
Proof.
  intros Hdir Hquiet. split.
  - unfold upload. cbn [missing].
    assert (Hfalsy : Js.falsy directory = false) by (by apply String.eqb_neq).
    rewrite Hfalsy, or_default_empty, !Hquiet.
    by destruct (existsSync env _).
  - intros Hname. unfold create_directory. rewrite Hname. cbn [negb].
    by rewrite orb_true_r.
Qed.

Lemma upload_checks_no_name_witness :
  fs_calls (upload example_node (Some (UploadFile "fw.bin" "data" 4)) (Some "v1.2"))
    = [Mkdir "/srv/public/firmware/v1.2";
       WriteFile "/srv/public/firmware/v1.2/fw.bin" "data"] /\
  fs_calls (create_directory example_node (Some "v1.2")) = [].
Proof.
  destruct (upload_checks_no_name example_node (UploadFile "fw.bin" "data" 4) "v1.2")
    as [Hupload Hcreate].
  - discriminate.
  - reflexivity.
  - rewrite Hupload, Hcreate; [| reflexivity]. split; reflexivity.
Defined.
